(** * Birthday picker utilities: calendar arithmetic, range policy, option
      builders and typeahead filters

    Shallow embedding of [BirthdayPicker/birthdayPickerUtils.ts].

    Conventions of the embedding.
    - A JavaScript [number] that holds an integer is a [Z].  The embedding is
      exact on safe integers (no rounding, decimal [toString] without
      exponent).  The remainder operator [%] is [Z.rem] (the sign follows the
      dividend) and [Math.min] is [Z.min].
    - A parameter of type [number | undefined] is an [option Z]; a
      [string | null | undefined] is an [option string]; a
      [DateParts | null] result is an [option DateParts].
    - A string is a [string] whose characters are read as the code units
      U+0000 .. U+00FF.  White space and lower-casing follow ECMAScript on
      that range.
    - Arrays are lists; [push] appends at the end.
    - Beside the utilities, the embedding covers the decisions of
      [index.ts] (module [Control]) and of [BirthdayPicker.tsx] (module
      [Picker]): React state is passed explicitly, an effect reads the state
      of its render, a [Date] is seen through its getters and
      [Intl.DateTimeFormat] is a parameter. *)

From Stdlib Require Import ZArith List Bool Ascii String Lia.
From Equations Require Import Equations.
Import ListNotations.

Local Open Scope string_scope.
Local Open Scope Z_scope.

(** ** JavaScript primitives used by the module *)

Module JS.

(** Truthiness of a number: [!n] holds for [0] (and [NaN], which no
    integer is). *)
Definition not_number (n : Z) : bool := n =? 0.

(** [!x] for [x : number | undefined]. *)
Definition not_opt_number (x : option Z) : bool :=
  match x with
  | None => true
  | Some n => not_number n
  end.

(** [!s] for a string: only the empty string is falsy. *)
Definition not_string (s : string) : bool :=
  match s with
  | EmptyString => true
  | String _ _ => false
  end.

(** [x === n] for [x : number | undefined] and [n : number]. *)
Definition strict_eq (x : option Z) (n : Z) : bool :=
  match x with
  | None => false
  | Some m => m =? n
  end.

(** [x ?? d] for [x : number | undefined]. *)
Definition nullish (x : option Z) (d : Z) : Z :=
  match x with
  | None => d
  | Some m => m
  end.

(** The character class [\d]. *)
Definition is_digit (c : ascii) : bool :=
  let n := N_of_ascii c in (48 <=? n)%N && (n <=? 57)%N.

Definition digit_value (c : ascii) : Z := Z.of_N (N_of_ascii c) - 48.

(** The character of a decimal digit [0 <= d <= 9]. *)
Definition digit_char (d : Z) : ascii := ascii_of_N (48 + Z.to_N d).

(** The decimal digits of [n >= 0], most significant first, put in front
    of [acc].  Every division by ten shortens the number. *)
Equations? decimal_digits (n : Z) (acc : string) : string
  by wf (Z.to_nat (Z.log2 n)) lt :=
  decimal_digits n acc with Z_lt_dec n 10 := {
    | left _ => String (digit_char n) acc
    | right _ =>
        decimal_digits (n / 10) (String (digit_char (n mod 10)) acc) }.
Proof.
  assert (Hle : n / 10 <= Z.shiftr n 1).
  { rewrite Z.shiftr_div_pow2 by lia. change (2 ^ 1) with 2.
    Z.div_mod_to_equations. lia. }
  apply Z.log2_le_mono in Hle.
  rewrite Z.log2_shiftr in Hle by lia.
  assert (H8 : Z.log2 8 <= Z.log2 n) by (apply Z.log2_le_mono; lia).
  change (Z.log2 8) with 3 in H8.
  pose proof (Z.log2_nonneg (n / 10)). lia.
Qed.

(** [Number.prototype.toString] on an integer: the decimal digits, with a
    leading minus sign below zero. *)
Definition toString (n : Z) : string :=
  if n <? 0 then String "-" (decimal_digits (- n) EmptyString)
  else decimal_digits n EmptyString.

(** [Number(s)] on a string of decimal digits. *)
Fixpoint Number_from (acc : Z) (s : string) : Z :=
  match s with
  | EmptyString => acc
  | String c r => Number_from (10 * acc + digit_value c) r
  end.

Definition Number (s : string) : Z := Number_from 0 s.

(** The first [n] characters of [s]. *)
Fixpoint take (n : nat) (s : string) : string :=
  match n, s with
  | S k, String c r => String c (take k r)
  | _, _ => EmptyString
  end.

Fixpoint repeat_string (fill : string) (copies : nat) : string :=
  match copies with
  | O => EmptyString
  | S k => fill ++ repeat_string fill k
  end.

(** [s.padStart(targetLength, fill)]: the filler is [fill] repeated and cut
    to the missing length ([fillLen] copies always suffice). *)
Definition padStart (s : string) (targetLength : nat) (fill : string) : string :=
  let len := String.length s in
  if (targetLength <=? len)%nat then s
  else if not_string fill then s
  else
    let fillLen := (targetLength - len)%nat in
    take fillLen (repeat_string fill fillLen) ++ s.

(** White space removed by [trim], among the code units below 256. *)
Definition is_white_space (c : ascii) : bool :=
  let n := N_of_ascii c in
  ((9 <=? n)%N && (n <=? 13)%N) || (n =? 32)%N || (n =? 160)%N.

Fixpoint trimStart (s : string) : string :=
  match s with
  | EmptyString => EmptyString
  | String c r => if is_white_space c then trimStart r else s
  end.

Fixpoint trimEnd (s : string) : string :=
  match s with
  | EmptyString => EmptyString
  | String c r =>
      match trimEnd r with
      | EmptyString => if is_white_space c then EmptyString else String c EmptyString
      | r' => String c r'
      end
  end.

Definition trim (s : string) : string := trimEnd (trimStart s).

(** Lower-casing of one code unit below 256: A-Z, and the Latin-1 capitals
    U+00C0 .. U+00DE except the multiplication sign U+00D7. *)
Definition lower_char (c : ascii) : ascii :=
  let n := N_of_ascii c in
  if ((65 <=? n)%N && (n <=? 90)%N)
     || ((192 <=? n)%N && (n <=? 222)%N && negb (n =? 215)%N)
  then ascii_of_N (n + 32)
  else c.

Fixpoint toLowerCase (s : string) : string :=
  match s with
  | EmptyString => EmptyString
  | String c r => String (lower_char c) (toLowerCase r)
  end.

(** [s.startsWith(search)]. *)
Fixpoint startsWith (s search : string) {struct search} : bool :=
  match search, s with
  | EmptyString, _ => true
  | String c r, String c' r' => Ascii.eqb c c' && startsWith r' r
  | String _ _, EmptyString => false
  end.

(** [s.includes(search)]. *)
Fixpoint includes (s search : string) : bool :=
  startsWith s search
  || match s with
     | EmptyString => false
     | String _ r => includes r search
     end.

(** [Array.from({ length }, (_, index) => f(index))]; a negative length
    counts as zero. *)
Definition array_from {A : Type} (length : Z) (f : Z -> A) : list A :=
  map (fun index => f (Z.of_nat index)) (seq 0 (Z.to_nat length)).

(** *** Regular expressions of the shape used by the module

    An anchored sequence [^ item ... item $] whose items are either a
    capture group of exactly [n] digits, [(\d{n})], or one literal
    character.  Every item has a fixed width, so matching never
    backtracks.  [exec] returns the captured groups in order, or [None]
    where the source gets [null]. *)
Inductive re_item : Type :=
| Digits (n : nat)
| Lit (c : ascii).

Fixpoint take_digits (n : nat) (s : string) : option (string * string) :=
  match n with
  | O => Some (EmptyString, s)
  | S k =>
      match s with
      | EmptyString => None
      | String c r =>
          if is_digit c then
            match take_digits k r with
            | Some (g, rest) => Some (String c g, rest)
            | None => None
            end
          else None
      end
  end.

Fixpoint exec (re : list re_item) (s : string) : option (list string) :=
  match re with
  | [] => if not_string s then Some [] else None
  | Digits n :: re' =>
      match take_digits n s with
      | Some (g, rest) =>
          match exec re' rest with
          | Some gs => Some (g :: gs)
          | None => None
          end
      | None => None
      end
  | Lit c :: re' =>
      match s with
      | String c' rest => if Ascii.eqb c c' then exec re' rest else None
      | EmptyString => None
      end
  end.

(** [/^\d+$/.test(s)]: one decimal digit or more, and nothing else. *)
Fixpoint test_digits_plus (s : string) : bool :=
  match s with
  | EmptyString => false
  | String c r =>
      is_digit c
      && match r with
         | EmptyString => true
         | String _ _ => test_digits_plus r
         end
  end.

(** [Number.isFinite(Number(s))] for a string of digits of value [n]: the
    value rounds to a finite double below [2^1024 - 2^970] and to [Infinity]
    from there on. *)
Definition Number_isFinite (n : Z) : bool := n <? 2 ^ 1024 - 2 ^ 970.

Definition MAX_SAFE_INTEGER : Z := 2 ^ 53 - 1.

(** [a === b] for [a, b : string | null]. *)
Definition strict_eq_string (a b : option string) : bool :=
  match a, b with
  | None, None => true
  | Some x, Some y => String.eqb x y
  | _, _ => false
  end.

(** [l.map((x, index) => f(x, index))], the index counted from [from]. *)
Fixpoint map_index_from {A B : Type} (from : Z) (f : A -> Z -> B) (l : list A)
    : list B :=
  match l with
  | [] => []
  | x :: r => f x from :: map_index_from (from + 1) f r
  end.

Definition map_index {A B : Type} (f : A -> Z -> B) (l : list A) : list B :=
  map_index_from 0 f l.

(** [l.slice(0, n)]. *)
Definition slice0 {A : Type} (n : nat) (l : list A) : list A := firstn n l.

(** A [Map<number, string>] as its entries in insertion order.  [set]
    overwrites the value of a key that is present and adds a new key at the
    end; [get] gives [None] for [undefined]. *)
Fixpoint Map_set (m : list (Z * string)) (k : Z) (v : string) : list (Z * string) :=
  match m with
  | [] => [(k, v)]
  | (k', v') :: r => if k' =? k then (k, v) :: r else (k', v') :: Map_set r k v
  end.

Fixpoint Map_get (m : list (Z * string)) (k : Z) : option string :=
  match m with
  | [] => None
  | (k', v') :: r => if k' =? k then Some v' else Map_get r k
  end.

End JS.

(** ** The module *)

Record DateParts : Type := mkDateParts {
  year : Z;
  month : Z;
  day : Z
}.

Record MonthOption : Type := mkMonthOption {
  value : Z;
  label : string
}.


Definition toTwoDigit (value : Z) : string :=
  JS.padStart (JS.toString value) 2 "0".

Definition formatIsoDate (year month day : Z) : string :=
  (JS.toString year ++ "-" ++ toTwoDigit month ++ "-" ++ toTwoDigit day)%string.

(** The pattern [/^(\d{4})-(\d{2})-(\d{2})$/]. *)
Definition ISO_DATE_RE : list JS.re_item :=
  [JS.Digits 4; JS.Lit "-"; JS.Digits 2; JS.Lit "-"; JS.Digits 2].

Definition parseIsoDate (value : option string) : option DateParts :=
  match value with
  | None => None
  | Some text =>
      if JS.not_string text then None
      else
        match JS.exec ISO_DATE_RE text with
        | Some [g1; g2; g3] =>
            let year := JS.Number g1 in
            let month := JS.Number g2 in
            let day := JS.Number g3 in
            if JS.not_number year || (month <? 1) || (month >? 12)
               || (day <? 1) || (day >? 31)
            then None
            else Some (mkDateParts year month day)
        | _ => None
        end
  end.

Definition isLeapYear (year : Z) : bool :=
  if Z.rem year 400 =? 0 then true
  else if Z.rem year 100 =? 0 then false
  else Z.rem year 4 =? 0.

Definition getDaysInMonth (year month : Z) : Z :=
  match month with
  | 2 => if isLeapYear year then 29 else 28
  | 4 | 6 | 9 | 11 => 30
  | _ => 31
  end.

Definition getMaxMonthForYear (selectedYear : option Z) (today : DateParts) : Z :=
  if JS.not_opt_number selectedYear then 12
  else if JS.strict_eq selectedYear (year today) then month today else 12.

Definition FALLBACK_YEAR : Z := 2001.

Definition getMaxDayForSelection
    (selectedYear selectedMonth : option Z) (today : DateParts) : Z :=
  match selectedMonth with
  | None => 31
  | Some selMonth =>
      if JS.not_number selMonth then 31
      else
        let year' := JS.nullish selectedYear FALLBACK_YEAR in
        let maxByMonth := getDaysInMonth year' selMonth in
        if JS.strict_eq selectedYear (year today)
           && (selMonth =? month today)
        then Z.min (day today) maxByMonth
        else maxByMonth
  end.

(** The loop [for (let year = maxYear; year >= start; year -= 1) years.push(year)]:
    [year] is the loop variable and [years] the array built so far.  The
    distance from [year] down to [start] shrinks with every iteration. *)
Equations? buildYearOptions_loop (start year : Z) (years : list Z) : list Z
  by wf (Z.to_nat (year - start + 1)) lt :=
  buildYearOptions_loop start year years with Z_le_dec start year := {
    | left _ => buildYearOptions_loop start (year - 1) (years ++ [year])%list
    | right _ => years }.
Proof. lia. Qed.

Definition buildYearOptions (minYear maxYear : Z) : list Z :=
  let start := Z.min minYear maxYear in
  buildYearOptions_loop start maxYear [].

Definition getAvailableMonths
    (options : list MonthOption) (selectedYear : option Z) (today : DateParts)
    : list MonthOption :=
  let maxMonth := getMaxMonthForYear selectedYear today in
  filter (fun option => value option <=? maxMonth) options.

Definition getAvailableDays
    (selectedYear selectedMonth : option Z) (today : DateParts) : list Z :=
  if JS.not_opt_number selectedMonth then
    JS.array_from 31 (fun index => index + 1)
  else
    let maxDay := getMaxDayForSelection selectedYear selectedMonth today in
    JS.array_from maxDay (fun index => index + 1).

Definition normalizeFilterText (value : string) : string :=
  JS.toLowerCase (JS.trim value).

Definition filterMonthOptions (options : list MonthOption) (input : string)
    : list MonthOption :=
  let filter_ := normalizeFilterText input in
  if JS.not_string filter_ then options
  else filter (fun option => JS.includes (JS.toLowerCase (label option)) filter_) options.

Definition filterNumberOptions (options : list Z) (input : string) : list Z :=
  let filter_ := normalizeFilterText input in
  if JS.not_string filter_ then options
  else filter (fun value => JS.includes (JS.toString value) filter_) options.

Definition filterYearOptions (options : list Z) (input : string) : list Z :=
  let filter_ := normalizeFilterText input in
  if JS.not_string filter_ then options
  else filter (fun value => JS.startsWith (JS.toString value) filter_) options.

(** ** The rest of the utilities *)

(** A [Date], seen through the three getters the module calls on it. *)
Record JSDate : Type := mkJSDate {
  getFullYear : Z;
  getMonth : Z;
  getDate : Z
}.

Definition dateToIso (value : option JSDate) : option string :=
  match value with
  | None => None
  | Some d => Some (formatIsoDate (getFullYear d) (getMonth d + 1) (getDate d))
  end.

Definition getTodayParts (value : JSDate) : DateParts :=
  mkDateParts (getFullYear value) (getMonth value + 1) (getDate value).

Section Intl.

(** The part of [Intl.DateTimeFormat] the module relies on:
    [supportedLocale locale] tells whether [new Intl.DateTimeFormat(locale)]
    returns (it throws otherwise), and [formatMonth locale index] is what the
    formatter of [locale] with [{ month: "long", timeZone: "UTC" }] prints for
    [new Date(Date.UTC(2020, index, 1))].  The locale "en-AU" is taken to be
    supported. *)
Variable supportedLocale : string -> bool.
Variable formatMonth : string -> Z -> string.

Definition buildMonthOptions (locale : string) (monthNames : option (list string))
    : list MonthOption :=
  let resolvedLocale := if supportedLocale locale then locale else "en-AU" in
  let formatter := formatMonth resolvedLocale in
  let names :=
    match monthNames with
    | Some given =>
        if (12 <=? List.length given)%nat then
          JS.map_index
            (fun name index =>
               if negb (JS.not_string name)
                  && (0 <? String.length (JS.trim name))%nat
               then name
               else formatter index)
            (JS.slice0 12 given)
        else JS.array_from 12 formatter
    | None => JS.array_from 12 formatter
    end in
  JS.map_index (fun label index => mkMonthOption (index + 1) label) names.

End Intl.

(** ** The control ([index.ts]) *)

Module Control.


(** The value the control holds, and how often [notifyOutputChanged] was
    called. *)
Record State : Type := mkState {
  currentValue : option string;
  notifications : nat
}.

Definition handleValueChange (value : option string) (s : State) : State :=
  if JS.strict_eq_string value (currentValue s) then s
  else mkState value (S (notifications s)).

End Control.

(** ** The component ([BirthdayPicker.tsx]) *)

Module Picker.

Definition getMonthLabelMap (options : list MonthOption) : list (Z * string) :=
  fold_left (fun map option => JS.Map_set map (value option) (label option))
    options [].

(** The properties of the component that its handlers read. *)
Record Props : Type := mkProps {
  minYear : Z;
  today : DateParts;
  monthLabelMap : list (Z * string)
}.

(** The state of the three fields: the selection, the text shown in each
    input and the text each option list is filtered by. *)
Record State : Type := mkState {
  selectedYear : option Z;
  selectedMonth : option Z;
  selectedDay : option Z;
  yearInput : string;
  monthInput : string;
  dayInput : string;
  yearFilter : string;
  monthFilter : string;
  dayFilter : string
}.

Definition parseNumericInput (value : string) : option Z :=
  let trimmed := JS.trim value in
  if JS.not_string trimmed then None
  else if negb (JS.test_digits_plus trimmed) then None
  else
    let parsed := JS.Number trimmed in
    if JS.Number_isFinite parsed then Some parsed else None.

(** [n ? n.toString() : ""] for [n : number | undefined]. *)
Definition text_of_selection (n : option Z) : string :=
  match n with
  | Some v => if JS.not_number v then "" else JS.toString v
  | None => ""
  end.


Definition setMonthSelection (p : Props) (month : option Z) (s : State) : State :=
  let text :=
    match month with
    | Some v =>
        if JS.not_number v then ""
        else
          match JS.Map_get (monthLabelMap p) v with
          | Some name => name
          | None => JS.toString v
          end
    | None => ""
    end in
  mkState (selectedYear s) month (selectedDay s)
    (yearInput s) text (dayInput s)
    (yearFilter s) "" (dayFilter s).

Definition setDaySelection (day : option Z) (s : State) : State :=
  mkState (selectedYear s) (selectedMonth s) day
    (yearInput s) (monthInput s) (text_of_selection day)
    (yearFilter s) (monthFilter s) "".


Definition commitDayInput (p : Props) (inputValue : string) (s : State) : State :=
  match parseNumericInput inputValue with
  | None => setDaySelection None s
  | Some parsed =>
      let maxDay :=
        if JS.not_opt_number (selectedMonth s) then 31
        else getMaxDayForSelection (selectedYear s) (selectedMonth s) (today p) in
      if (parsed <? 1) || (parsed >? maxDay)
      then setDaySelection None s
      else setDaySelection (Some parsed) s
  end.


Definition handleDayBlur (p : Props) (s : State) : State :=
  commitDayInput p (dayInput s) s.

(** The memo [computedIso]. *)
Definition computedIso (s : State) : option string :=
  match selectedYear s, selectedMonth s, selectedDay s with
  | Some y, Some m, Some d =>
      if negb (JS.not_number y) && negb (JS.not_number m) && negb (JS.not_number d)
      then Some (formatIsoDate y m d)
      else None
  | _, _, _ => None
  end.

(** The effect that follows the [value] property, from the point where it
    has decided to take the value over. *)
Definition syncFromValue (p : Props) (value : option string) (s : State) : State :=
  let cleared := mkState None None None "" "" "" "" "" "" in
  match value with
  | None => cleared
  | Some text =>
      if JS.not_string text then cleared
      else
        match parseIsoDate value with
        | None => cleared
        | Some parsed =>
            mkState (Some (year parsed)) (Some (month parsed)) (Some (day parsed))
              (JS.toString (year parsed))
              match JS.Map_get (monthLabelMap p) (month parsed) with
              | Some name => name
              | None => JS.toString (month parsed)
              end
              (JS.toString (day parsed))
              (yearFilter s) (monthFilter s) (dayFilter s)
        end
  end.

(** The effects that follow the selection.  An effect reads the state of the
    render it belongs to ([rendered]) and its state updates go to the state
    of the next render ([next]). *)
Definition monthLabelEffect (p : Props) (rendered next : State) : State :=
  if JS.not_opt_number (selectedMonth rendered) then next
  else
    match selectedMonth rendered with
    | None => next
    | Some selMonth =>
        match JS.Map_get (monthLabelMap p) selMonth with
        | None => next
        | Some name =>
            if negb (JS.not_string name)
               && negb (String.eqb name (monthInput rendered))
            then
              mkState (selectedYear next) (selectedMonth next) (selectedDay next)
                (yearInput next) name (dayInput next)
                (yearFilter next) (monthFilter next) (dayFilter next)
            else next
        end
    end.

Definition monthClampEffect (p : Props) (rendered next : State) : State :=
  match selectedYear rendered, selectedMonth rendered with
  | Some _, Some selMonth =>
      let maxMonth := getMaxMonthForYear (selectedYear rendered) (today p) in
      if selMonth >? maxMonth then setMonthSelection p (Some maxMonth) next
      else next
  | _, _ => next
  end.

Definition dayClampEffect (p : Props) (rendered next : State) : State :=
  match selectedMonth rendered, selectedDay rendered with
  | Some _, Some selDay =>
      let maxDay :=
        getMaxDayForSelection (selectedYear rendered) (selectedMonth rendered)
          (today p) in
      if selDay >? maxDay then setDaySelection None next else next
  | _, _ => next
  end.

(** One render in which the selection changed and the [value] property did
    not: the three effects run, in the order of the source, on the state of
    that render. *)
Definition selectionEffects (p : Props) (s : State) : State :=
  dayClampEffect p s (monthClampEffect p s (monthLabelEffect p s s)).

End Picker.

(** ** Vocabulary of the statements *)

(** The list 1..31 written out. *)
Definition FULL_DAY_LIST : list Z :=
  [1; 2; 3; 4; 5; 6; 7; 8; 9; 10; 11; 12; 13; 14; 15; 16; 17; 18; 19; 20;
   21; 22; 23; 24; 25; 26; 27; 28; 29; 30; 31].

(** The descending run of consecutive integers [hi, hi - 1, ..., lo]; empty
    when [hi < lo]. *)
Definition countdown (hi lo : Z) : list Z :=
  map (fun i => hi - Z.of_nat i) (seq 0 (Z.to_nat (hi - lo + 1))).

(** A string made of white space only (the empty string included). *)
Fixpoint white_space_only (s : string) : bool :=
  match s with
  | EmptyString => true
  | String c r => JS.is_white_space c && white_space_only r
  end.

(** A string of decimal digits only. *)
Fixpoint digits_only (s : string) : bool :=
  match s with
  | EmptyString => true
  | String c r => JS.is_digit c && digits_only r
  end.

(** Exactly [n] decimal digits. *)
Definition digit_string (n : nat) (g : string) : Prop :=
  String.length g = n /\ digits_only g = true.

(** The shape "four digits, '-', two digits, '-', two digits", with its three
    digit groups. *)
Definition iso_shape (text g1 g2 g3 : string) : Prop :=
  digit_string 4 g1 /\ digit_string 2 g2 /\ digit_string 2 g3
  /\ text = (g1 ++ "-" ++ g2 ++ "-" ++ g3)%string.

(** [sub] is [l] with some elements left out, the others in their order. *)
Inductive subsequence {A : Type} : list A -> list A -> Prop :=
| subsequence_nil : subsequence [] []
| subsequence_keep (x : A) (sub l : list A) :
    subsequence sub l -> subsequence (x :: sub) (x :: l)
| subsequence_drop (x : A) (sub l : list A) :
    subsequence sub l -> subsequence sub (x :: l).

(** The ascending run [1, 2, ..., n]; empty when [n < 1]. *)
Definition count_to (n : Z) : list Z :=
  map (fun i => Z.of_nat i + 1) (seq 0 (Z.to_nat n)).

(** [text] contains [search]: something, [search], something. *)
Definition contains (text search : string) : Prop :=
  exists before after, text = (before ++ search ++ after)%string.

(** The date [(y, m, d)] is not later than [today]. *)
Definition not_after (y m d : Z) (today : DateParts) : Prop :=
  y < year today
  \/ (y = year today /\ m < month today)
  \/ (y = year today /\ m = month today /\ d <= day today).

(** What the three effects of a render would do: whether the month is to be
    clamped, whether the day is to be cleared, and the month text as the
    label effect leaves it. *)
Definition month_clamp_due (p : Picker.Props) (s : Picker.State) : bool :=
  match Picker.selectedYear s, Picker.selectedMonth s with
  | Some _, Some m =>
      m >? getMaxMonthForYear (Picker.selectedYear s) (Picker.today p)
  | _, _ => false
  end.

Definition day_clamp_due (p : Picker.Props) (s : Picker.State) : bool :=
  match Picker.selectedMonth s, Picker.selectedDay s with
  | Some _, Some d =>
      d >? getMaxDayForSelection (Picker.selectedYear s) (Picker.selectedMonth s)
             (Picker.today p)
  | _, _ => false
  end.

Definition month_text_labelled (p : Picker.Props) (s : Picker.State) : string :=
  Picker.monthInput (Picker.monthLabelEffect p s s).

(** * Properties *)

(** ** Calendar engine: leap years and month lengths *)

Section Calendar.

Lemma rem_zero_divide (y d : Z) : d <> 0 -> (Z.rem y d =? 0) = true <-> (d | y).
Proof.
  intros Hd. rewrite Z.eqb_eq. apply Z.rem_divide, Hd.
Qed.

Lemma rem_nonzero_divide (y d : Z) : d <> 0 -> (Z.rem y d =? 0) = false <-> ~ (d | y).
Proof.
  intros Hd. rewrite <- (rem_zero_divide y d Hd).
  destruct (Z.rem y d =? 0); split; congruence.
Qed.

Lemma isLeapYear_divide (y : Z) :
  isLeapYear y = true <-> (400 | y) \/ ((4 | y) /\ ~ (100 | y)).
Proof.
  unfold isLeapYear.
  destruct (Z.rem y 400 =? 0) eqn:H400.
  - apply rem_zero_divide in H400; [tauto | lia].
  - apply rem_nonzero_divide in H400; [| lia].
    destruct (Z.rem y 100 =? 0) eqn:H100.
    + apply rem_zero_divide in H100; [| lia].
      split; [discriminate | tauto].
    + apply rem_nonzero_divide in H100; [| lia].
      rewrite rem_zero_divide by lia. tauto.
Qed.

(** C5: [isLeapYear y] holds exactly when [y] is divisible by 400, or by 4
    and not by 100; the same rule written with the mathematical modulo;
    and the four sample years 2000, 1900, 2024, 2023. *)
Theorem isLeapYear_gregorian :
  (forall y : Z,
      isLeapYear y = true <-> (400 | y) \/ ((4 | y) /\ ~ (100 | y)))
  /\ (forall y : Z,
      isLeapYear y = true <->
      (y mod 4 = 0 /\ y mod 100 <> 0) \/ y mod 400 = 0)
  /\ isLeapYear 2000 = true
  /\ isLeapYear 1900 = false
  /\ isLeapYear 2024 = true
  /\ isLeapYear 2023 = false.
Proof.
  split; [exact isLeapYear_divide |].
  split; [| repeat split; reflexivity].
  intros y. rewrite isLeapYear_divide.
  rewrite !Z.mod_divide by lia. tauto.
Qed.

(** C6: for a month within 1..12, [getDaysInMonth] is 31 for the months
    1, 3, 5, 7, 8, 10, 12; 30 for 4, 6, 9, 11; and for February 29 in a leap
    year and 28 otherwise. *)
Theorem getDaysInMonth_table (y m : Z) :
  1 <= m <= 12 ->
  (In m [1; 3; 5; 7; 8; 10; 12] -> getDaysInMonth y m = 31)
  /\ (In m [4; 6; 9; 11] -> getDaysInMonth y m = 30)
  /\ (m = 2 -> isLeapYear y = true -> getDaysInMonth y m = 29)
  /\ (m = 2 -> isLeapYear y = false -> getDaysInMonth y m = 28).
Proof.
  intros Hm.
  assert (Hcases : m = 1 \/ m = 2 \/ m = 3 \/ m = 4 \/ m = 5 \/ m = 6
                   \/ m = 7 \/ m = 8 \/ m = 9 \/ m = 10 \/ m = 11 \/ m = 12)
    by lia.
  repeat split; intros H; simpl in H;
    try (intros Hleap; subst m; unfold getDaysInMonth; rewrite Hleap; reflexivity);
    repeat (destruct H as [H | H]; [subst m; reflexivity |]);
    contradiction.
Qed.

Lemma getDaysInMonth_table_witness :
  1 <= 2 <= 12
  /\ getDaysInMonth 2024 2 = 29
  /\ getDaysInMonth 2023 2 = 28
  /\ getDaysInMonth 2023 4 = 30
  /\ getDaysInMonth 2023 1 = 31.
Proof.
  split; [lia |].
  split; [apply (getDaysInMonth_table 2024 2); [lia | reflexivity | reflexivity] |].
  split; [apply (getDaysInMonth_table 2023 2); [lia | reflexivity | reflexivity] |].
  split; [apply (getDaysInMonth_table 2023 4); [lia | simpl; tauto] |].
  apply (getDaysInMonth_table 2023 1); [lia | simpl; tauto].
Defined.

Lemma getDaysInMonth_bounds (y m : Z) : 28 <= getDaysInMonth y m <= 31.
Proof.
  unfold getDaysInMonth.
  destruct m as [| p | p]; try lia.
  do 4 (try destruct p as [p | p |]); try lia; destruct (isLeapYear y); lia.
Qed.

End Calendar.

(** ** Range policy *)

Section RangePolicy.

Variable today : DateParts.

Lemma getMaxMonthForYear_absent : getMaxMonthForYear None today = 12.
Proof. reflexivity. Qed.

Lemma getMaxMonthForYear_zero : getMaxMonthForYear (Some 0) today = 12.
Proof. reflexivity. Qed.

Lemma getMaxMonthForYear_present (y : Z) :
  y <> 0 ->
  getMaxMonthForYear (Some y) today = if y =? year today then month today else 12.
Proof.
  intros Hy. unfold getMaxMonthForYear, JS.not_opt_number, JS.not_number.
  apply Z.eqb_neq in Hy. rewrite Hy. reflexivity.
Qed.

Lemma getMaxDayForSelection_no_month (selectedYear : option Z) :
  getMaxDayForSelection selectedYear None today = 31
  /\ getMaxDayForSelection selectedYear (Some 0) today = 31.
Proof. split; reflexivity. Qed.

Lemma getMaxDayForSelection_month (selectedYear : option Z) (m : Z) :
  m <> 0 ->
  getMaxDayForSelection selectedYear (Some m) today =
    let maxByMonth := getDaysInMonth (JS.nullish selectedYear FALLBACK_YEAR) m in
    if JS.strict_eq selectedYear (year today) && (m =? month today)
    then Z.min (day today) maxByMonth
    else maxByMonth.
Proof.
  intros Hm. unfold getMaxDayForSelection, JS.not_number.
  apply Z.eqb_neq in Hm. rewrite Hm. reflexivity.
Qed.

Lemma strict_eq_true (x : option Z) (n : Z) :
  JS.strict_eq x n = true <-> x = Some n.
Proof.
  destruct x as [m |]; simpl.
  - rewrite Z.eqb_eq. split; congruence.
  - split; discriminate.
Qed.

End RangePolicy.

(** C7, as the code has it: [getMaxMonthForYear] gives 12 when the year is
    absent or is the number 0, [today.month] when the selected year is a
    non-zero number equal to [today.year], and 12 for any other year. *)
Theorem getMaxMonthForYear_cases (selectedYear : option Z) (today : DateParts) :
  (selectedYear = None \/ selectedYear = Some 0 ->
   getMaxMonthForYear selectedYear today = 12)
  /\ (forall y, selectedYear = Some y -> y <> 0 -> y = year today ->
      getMaxMonthForYear selectedYear today = month today)
  /\ (forall y, selectedYear = Some y -> y <> year today ->
      getMaxMonthForYear selectedYear today = 12).
Proof.
  split; [| split].
  - intros [-> | ->]; reflexivity.
  - intros y -> Hy ->. rewrite getMaxMonthForYear_present by exact Hy.
    rewrite Z.eqb_refl. reflexivity.
  - intros y -> Hne. unfold getMaxMonthForYear. simpl.
    destruct (JS.not_number y); [reflexivity |].
    apply Z.eqb_neq in Hne. rewrite Hne. reflexivity.
Qed.

(** C7 as stated fails when the selected year is the number 0 and today's
    year is 0 as well: the selected year equals [today.year], yet the result
    is 12 and not [today.month]. *)
Lemma getMaxMonthForYear_year_zero_counterexample :
  let today := mkDateParts 0 6 10 in
  Some 0 = Some (year today)
  /\ getMaxMonthForYear (Some 0) today = 12
  /\ getMaxMonthForYear (Some 0) today <> month today.
Proof.
  repeat split. discriminate.
Qed.

(** C3, as the code has it: for a month within 1..12 the result is
    [getDaysInMonth effectiveYear month], where the effective year is the
    selected year or, when the year is absent, the fallback year 2001, which
    is not a leap year.  The result is clamped to
    [min today.day (getDaysInMonth ...)] exactly when the selected year is
    present and equal to [today.year] and the month equals [today.month];
    with an absent year there is no clamp, whatever [today] is. *)
Theorem getMaxDayForSelection_cases
    (selectedYear : option Z) (m : Z) (today : DateParts) :
  1 <= m <= 12 ->
  let effectiveYear :=
    match selectedYear with Some y => y | None => FALLBACK_YEAR end in
  isLeapYear FALLBACK_YEAR = false
  /\ (selectedYear = Some (year today) -> m = month today ->
      getMaxDayForSelection selectedYear (Some m) today =
        Z.min (day today) (getDaysInMonth effectiveYear m))
  /\ (selectedYear <> Some (year today) \/ m <> month today ->
      getMaxDayForSelection selectedYear (Some m) today =
        getDaysInMonth effectiveYear m)
  /\ (selectedYear = None ->
      getMaxDayForSelection selectedYear (Some m) today =
        getDaysInMonth FALLBACK_YEAR m).
Proof.
  intros Hm effectiveYear.
  assert (Hm0 : m <> 0) by lia.
  pose proof (getMaxDayForSelection_month today selectedYear m Hm0) as Heq.
  cbv zeta in Heq.
  replace (JS.nullish selectedYear FALLBACK_YEAR) with effectiveYear in Heq
    by (destruct selectedYear; reflexivity).
  split; [reflexivity |].
  split; [| split].
  - intros Hy Hmt. rewrite Heq.
    apply strict_eq_true in Hy. apply Z.eqb_eq in Hmt.
    rewrite Hy, Hmt. reflexivity.
  - intros Hor. rewrite Heq.
    destruct (JS.strict_eq selectedYear (year today)) eqn:Hy; [| reflexivity].
    destruct (m =? month today) eqn:Hmt; [| reflexivity].
    apply strict_eq_true in Hy. apply Z.eqb_eq in Hmt. tauto.
  - intros Hnone. rewrite Heq. subst selectedYear. reflexivity.
Qed.

Lemma getMaxDayForSelection_cases_witness :
  let today := mkDateParts 2024 6 10 in
  1 <= 6 <= 12
  /\ getMaxDayForSelection (Some 2024) (Some 6) today = 10
  /\ getMaxDayForSelection (Some 2024) (Some 2) today = 29
  /\ getMaxDayForSelection None (Some 6) today = 30.
Proof.
  intros today.
  split; [lia |].
  split; [apply (getMaxDayForSelection_cases (Some 2024) 6 today); [lia | reflexivity | reflexivity] |].
  split; [apply (getMaxDayForSelection_cases (Some 2024) 2 today); [lia | right; discriminate] |].
  apply (getMaxDayForSelection_cases None 6 today); [lia | reflexivity].
Defined.

(** C3 as stated fails when the year is absent and today lies in the fallback
    year: the effective (year, month) equals (today.year, today.month), yet
    the result is the full month length 30 and not [min today.day 30 = 10]. *)
Lemma getMaxDayForSelection_fallback_counterexample :
  let today := mkDateParts 2001 6 10 in
  (JS.nullish None FALLBACK_YEAR, 6) = (year today, month today)
  /\ getMaxDayForSelection None (Some 6) today = 30
  /\ getMaxDayForSelection None (Some 6) today
     <> Z.min (day today) (getDaysInMonth (JS.nullish None FALLBACK_YEAR) 6).
Proof.
  repeat split. discriminate.
Qed.

(** C10, as the code has it: the number 0 is treated exactly like an absent
    selection where the code tests the value with [!]: as the selected year in
    [getMaxMonthForYear] (result 12), and as the selected month in
    [getMaxDayForSelection] (result 31, for every selected year) and in
    [getAvailableDays] (the full list 1..31, for every selected year).  As the
    selected year of [getMaxDayForSelection] with a month present, 0 is an
    ordinary year: the fallback year replaces an absent year only; and
    [getAvailableDays] with a month present lists the days up to that
    result. *)
Theorem zero_selection_cases (today : DateParts) :
  (getMaxMonthForYear (Some 0) today = 12
   /\ getMaxMonthForYear (Some 0) today = getMaxMonthForYear None today)
  /\ (forall y : option Z,
         getMaxDayForSelection y (Some 0) today = 31
         /\ getMaxDayForSelection y (Some 0) today
            = getMaxDayForSelection y None today)
  /\ (forall y : option Z,
         getAvailableDays y (Some 0) today = FULL_DAY_LIST
         /\ getAvailableDays y (Some 0) today = getAvailableDays y None today)
  /\ (forall m : Z, m <> 0 ->
         getMaxDayForSelection (Some 0) (Some m) today =
           if (0 =? year today) && (m =? month today)
           then Z.min (day today) (getDaysInMonth 0 m)
           else getDaysInMonth 0 m)
  /\ (forall (y : option Z) (m : Z), m <> 0 ->
         getAvailableDays y (Some m) today =
           JS.array_from (getMaxDayForSelection y (Some m) today)
             (fun index => index + 1)).
Proof.
  split; [split; reflexivity |].
  split; [intros y; split; reflexivity |].
  split; [intros y; split; reflexivity |].
  split.
  - intros m Hm. rewrite getMaxDayForSelection_month by exact Hm. reflexivity.
  - intros y m Hm. unfold getAvailableDays, JS.not_opt_number, JS.not_number.
    apply Z.eqb_neq in Hm. rewrite Hm. reflexivity.
Qed.

(** C10 as stated fails for the selected year of [getMaxDayForSelection] and
    [getAvailableDays]: with February selected, the year 0 is a leap year and
    gives 29 days, while an absent year gives the 28 days of the fallback
    year. *)
Lemma zero_year_not_absent_counterexample :
  let today := mkDateParts 2024 6 10 in
  getMaxDayForSelection (Some 0) (Some 2) today = 29
  /\ getMaxDayForSelection None (Some 2) today = 28
  /\ getMaxDayForSelection (Some 0) (Some 2) today
     <> getMaxDayForSelection None (Some 2) today
  /\ getAvailableDays (Some 0) (Some 2) today
     <> getAvailableDays None (Some 2) today.
Proof.
  repeat split; discriminate.
Qed.

(** ** Option builder: the list of years *)

Section YearOptions.

Lemma countdown_empty (hi lo : Z) : hi < lo -> countdown hi lo = [].
Proof.
  intros H. unfold countdown.
  replace (Z.to_nat (hi - lo + 1)) with 0%nat by lia. reflexivity.
Qed.

Lemma countdown_step (hi lo : Z) :
  lo <= hi -> countdown hi lo = hi :: countdown (hi - 1) lo.
Proof.
  intros H. unfold countdown.
  replace (Z.to_nat (hi - lo + 1)) with (S (Z.to_nat (hi - 1 - lo + 1))) by lia.
  cbn [seq map]. f_equal; [lia |].
  rewrite <- seq_shift, map_map.
  apply map_ext. intros i. lia.
Qed.

Lemma countdown_single (n : Z) : countdown n n = [n].
Proof.
  rewrite countdown_step by lia. rewrite countdown_empty by lia. reflexivity.
Qed.

Lemma countdown_length (hi lo : Z) :
  List.length (countdown hi lo) = Z.to_nat (hi - lo + 1).
Proof.
  unfold countdown. rewrite length_map, length_seq. reflexivity.
Qed.

Lemma countdown_nth (hi lo : Z) (i : nat) :
  (i < Z.to_nat (hi - lo + 1))%nat ->
  nth i (countdown hi lo) 0 = hi - Z.of_nat i.
Proof.
  intros Hi. unfold countdown.
  set (f := fun k : nat => hi - Z.of_nat k).
  rewrite (nth_indep _ 0 (f 0%nat))
    by (rewrite length_map, length_seq; exact Hi).
  rewrite map_nth, seq_nth by exact Hi. reflexivity.
Qed.

Lemma countdown_In (hi lo x : Z) : In x (countdown hi lo) <-> lo <= x <= hi.
Proof.
  unfold countdown. rewrite in_map_iff. split.
  - intros [i [<- Hi]]. apply in_seq in Hi. lia.
  - intros Hx. exists (Z.to_nat (hi - x)). split; [lia |].
    apply in_seq. lia.
Qed.

(** The loop appends to [years] the run from [year] down to [start]. *)
Lemma buildYearOptions_loop_countdown (start year : Z) (years : list Z) :
  buildYearOptions_loop start year years = (years ++ countdown year start)%list.
Proof.
  funelim (buildYearOptions_loop start year years).
  - match goal with
    | IH : buildYearOptions_loop _ _ _ = (_ ++ countdown _ _)%list |- _ =>
        rewrite IH
    end.
    rewrite <- app_assoc. cbn [app].
    rewrite <- countdown_step by assumption. reflexivity.
  - rewrite countdown_empty by lia. rewrite app_nil_r. reflexivity.
Qed.

End YearOptions.

(** C2, as the code has it: [buildYearOptions minYear maxYear] is the
    descending run of consecutive integers from [maxYear] down to
    [min minYear maxYear] inclusive.  With [minYear <= maxYear] this is the run
    from the larger to the smaller argument; with [minYear > maxYear] it is
    the one-element list [[maxYear]]. *)
Theorem buildYearOptions_countdown (minYear maxYear : Z) :
  buildYearOptions minYear maxYear = countdown maxYear (Z.min minYear maxYear)
  /\ (minYear <= maxYear ->
      buildYearOptions minYear maxYear
      = countdown (Z.max minYear maxYear) (Z.min minYear maxYear))
  /\ (maxYear < minYear -> buildYearOptions minYear maxYear = [maxYear]).
Proof.
  assert (Hrun : buildYearOptions minYear maxYear
                 = countdown maxYear (Z.min minYear maxYear)).
  { unfold buildYearOptions. cbv zeta.
    rewrite buildYearOptions_loop_countdown. reflexivity. }
  split; [exact Hrun |]. split.
  - intros Hle. rewrite Hrun. rewrite Z.max_r by exact Hle. reflexivity.
  - intros Hlt. rewrite Hrun. rewrite Z.min_r by lia. apply countdown_single.
Qed.

(** C2 as stated fails for [minYear > maxYear]: the years 2005 and 2001 give
    the single year 2001, not the run from 2005 down to 2001. *)
Lemma buildYearOptions_swapped_counterexample :
  buildYearOptions 2005 2001 = [2001]
  /\ countdown (Z.max 2005 2001) (Z.min 2005 2001) = [2005; 2004; 2003; 2002; 2001]
  /\ buildYearOptions 2005 2001
     <> countdown (Z.max 2005 2001) (Z.min 2005 2001).
Proof.
  assert (Hcode : buildYearOptions 2005 2001 = [2001]) by reflexivity.
  split; [exact Hcode |].
  split; [reflexivity |].
  rewrite Hcode. discriminate.
Qed.

(** ** Strings *)

Section Strings.

Lemma not_string_true (s : string) : JS.not_string s = true <-> s = "".
Proof. destruct s; simpl; split; congruence. Qed.

Lemma not_string_false (s : string) : JS.not_string s = false <-> s <> "".
Proof. destruct s; simpl; split; congruence. Qed.

Lemma toLowerCase_empty (s : string) : JS.toLowerCase s = "" <-> s = "".
Proof. destruct s; simpl; split; congruence. Qed.

Lemma normalizeFilterText_empty (input : string) :
  normalizeFilterText input = "" <-> JS.trim input = "".
Proof. unfold normalizeFilterText. apply toLowerCase_empty. Qed.

(** [startsWith] decides "[search] followed by something". *)
Lemma startsWith_spec (s search : string) :
  JS.startsWith s search = true <-> exists rest, s = (search ++ rest)%string.
Proof.
  revert s. induction search as [| c r IH]; intros s; simpl.
  - split; [intros _; exists s; reflexivity | reflexivity].
  - destruct s as [| c' r'].
    + split; [discriminate | intros [rest H]; discriminate].
    + rewrite andb_true_iff, Ascii.eqb_eq, IH. split.
      * intros [-> [rest ->]]. exists rest. reflexivity.
      * intros [rest H]. injection H as -> ->. split; [reflexivity |].
        exists rest. reflexivity.
Qed.

Lemma trimStart_empty (s : string) :
  JS.trimStart s = "" <-> white_space_only s = true.
Proof.
  induction s as [| c r IH]; simpl.
  - tauto.
  - destruct (JS.is_white_space c); simpl; [exact IH |].
    split; discriminate.
Qed.

Lemma trimStart_head (s : string) :
  JS.trimStart s = ""
  \/ exists c r, JS.trimStart s = String c r /\ JS.is_white_space c = false.
Proof.
  induction s as [| c r IH]; simpl.
  - left. reflexivity.
  - destruct (JS.is_white_space c) eqn:Hc; [exact IH |].
    right. exists c, r. split; [reflexivity | exact Hc].
Qed.

Lemma trimEnd_head (c : ascii) (r : string) :
  JS.is_white_space c = false -> JS.trimEnd (String c r) <> "".
Proof.
  intros Hc. simpl. destruct (JS.trimEnd r); [rewrite Hc |]; discriminate.
Qed.

(** The trimmed form is empty exactly for the white-space-only strings. *)
Lemma trim_empty (s : string) :
  JS.trim s = "" <-> white_space_only s = true.
Proof.
  rewrite <- trimStart_empty. unfold JS.trim. split.
  - intros H. destruct (trimStart_head s) as [He | [c [r [He Hc]]]].
    + exact He.
    + rewrite He in H. apply trimEnd_head in H; [contradiction | exact Hc].
  - intros ->. reflexivity.
Qed.

End Strings.

(** ** Typeahead filters *)

(** C8: for a query whose trimmed form is empty, each of the three filters
    returns its option list unchanged. *)
Theorem filters_empty_query (input : string) :
  JS.trim input = "" ->
  (forall options : list MonthOption, filterMonthOptions options input = options)
  /\ (forall options : list Z, filterNumberOptions options input = options)
  /\ (forall options : list Z, filterYearOptions options input = options).
Proof.
  intros Htrim.
  apply normalizeFilterText_empty in Htrim.
  unfold filterMonthOptions, filterNumberOptions, filterYearOptions.
  cbv zeta. rewrite Htrim. simpl. repeat split.
Qed.

Lemma filters_empty_query_witness :
  JS.trim "   " = ""
  /\ filterMonthOptions [mkMonthOption 3 "March"; mkMonthOption 5 "May"] "   "
     = [mkMonthOption 3 "March"; mkMonthOption 5 "May"]
  /\ filterNumberOptions [3; 13; 7] "   " = [3; 13; 7]
  /\ filterYearOptions [1905; 1904] "   " = [1905; 1904].
Proof.
  split; [reflexivity |].
  split; [apply (filters_empty_query "   "); reflexivity |].
  split; apply (filters_empty_query "   "); reflexivity.
Defined.

(** C9: for a query whose trimmed form is not empty, [filterYearOptions]
    keeps, in the order of the input, exactly the values whose decimal
    representation starts with the normalized query.  The match is on the
    prefix, not on any substring: 2019 and 1219 contain "19" but do not pass.
    The years 1901..1905 as built, filtered by "19", all pass, in descending
    order. *)
Theorem filterYearOptions_prefix (options : list Z) (input : string) :
  JS.trim input <> "" ->
  let query := normalizeFilterText input in
  filterYearOptions options input
  = filter (fun value => JS.startsWith (JS.toString value) query) options
  /\ (forall value : Z,
        In value (filterYearOptions options input) <->
        In value options
        /\ exists rest, JS.toString value = (query ++ rest)%string)
  /\ filterYearOptions [1901; 2019; 1219] "19" = [1901]
  /\ filterYearOptions (buildYearOptions 1901 1905) "19"
     = [1905; 1904; 1903; 1902; 1901].
Proof.
  intros Htrim query.
  assert (Hq : JS.not_string query = false).
  { apply not_string_false. unfold query.
    rewrite normalizeFilterText_empty. exact Htrim. }
  assert (Heq : filterYearOptions options input
                = filter (fun value => JS.startsWith (JS.toString value) query)
                    options).
  { unfold filterYearOptions. cbv zeta. fold query. rewrite Hq. reflexivity. }
  split; [exact Heq |].
  split; [| split; vm_compute; reflexivity].
  intros value. rewrite Heq, filter_In, startsWith_spec. reflexivity.
Qed.

Lemma filterYearOptions_prefix_witness :
  JS.trim " 19 " <> ""
  /\ filterYearOptions [2019; 1984; 1919; 191] " 19 " = [1984; 1919; 191].
Proof.
  assert (Htrim : JS.trim " 19 " <> "") by (vm_compute; discriminate).
  split; [exact Htrim |].
  rewrite (proj1 (filterYearOptions_prefix [2019; 1984; 1919; 191] " 19 " Htrim)).
  reflexivity.
Defined.

(** ** ISO date text *)

Section IsoText.

Lemma take_digits_spec (n : nat) (s g rest : string) :
  JS.take_digits n s = Some (g, rest)
  <-> s = (g ++ rest)%string /\ digit_string n g.
Proof.
  unfold digit_string.
  revert s g rest. induction n as [| k IH]; intros s g rest; simpl.
  - split.
    + intros H. injection H as <- <-. repeat split.
    + intros [-> [Hlen _]]. destruct g; [reflexivity | discriminate].
  - destruct s as [| c r].
    + split; [discriminate |].
      intros [H [Hlen _]]. destruct g; discriminate.
    + destruct (JS.is_digit c) eqn:Hc.
      * destruct (JS.take_digits k r) as [[g' rest'] |] eqn:Hk.
        -- apply IH in Hk. destruct Hk as [-> [Hlen Hdig]]. split.
           ++ intros H. injection H as <- <-. simpl.
              rewrite Hc, Hlen, Hdig. repeat split.
           ++ intros [H [Hl Hd]]. destruct g as [| c' g'']; [discriminate |].
              simpl in H, Hl, Hd. injection H as <- H.
              apply andb_true_iff in Hd. destruct Hd as [_ Hd].
              injection Hl as Hl.
              assert (Hk : JS.take_digits k (g' ++ rest')%string = Some (g'', rest))
                by (apply IH; auto).
              assert (Hk' : JS.take_digits k (g' ++ rest')%string = Some (g', rest'))
                by (apply IH; auto).
              congruence.
        -- split; [discriminate |].
           intros [H [Hl Hd]]. destruct g as [| c' g'']; [discriminate |].
           simpl in H, Hl, Hd. injection H as <- H.
           apply andb_true_iff in Hd. destruct Hd as [_ Hd].
           injection Hl as Hl.
           assert (Hk' : JS.take_digits k r = Some (g'', rest))
             by (apply IH; auto).
           congruence.
      * split; [discriminate |].
        intros [H [Hl Hd]]. destruct g as [| c' g'']; [discriminate |].
        simpl in H, Hd. injection H as <- H.
        rewrite Hc in Hd. discriminate.
Qed.

Lemma exec_digits (n : nat) (re : list JS.re_item) (s : string) :
  JS.exec (JS.Digits n :: re) s =
    match JS.take_digits n s with
    | Some (g, rest) =>
        match JS.exec re rest with
        | Some gs => Some (g :: gs)
        | None => None
        end
    | None => None
    end.
Proof. reflexivity. Qed.

Lemma exec_lit (c : ascii) (re : list JS.re_item) (s : string) (gs : list string) :
  JS.exec (JS.Lit c :: re) s = Some gs
  <-> exists rest, s = String c rest /\ JS.exec re rest = Some gs.
Proof.
  simpl. destruct s as [| c' rest].
  - split; [discriminate | intros [r [H _]]; discriminate].
  - destruct (Ascii.eqb c c') eqn:Hc.
    + apply Ascii.eqb_eq in Hc. subst c'. split.
      * intros H. exists rest. split; [reflexivity | exact H].
      * intros [r [H He]]. injection H as ->. exact He.
    + apply Ascii.eqb_neq in Hc. split; [discriminate |].
      intros [r [H _]]. injection H as H _. congruence.
Qed.

Lemma exec_end (s : string) (gs : list string) :
  JS.exec [] s = Some gs <-> s = "" /\ gs = [].
Proof.
  simpl. destruct s; simpl; split.
  - intros H. injection H as <-. split; reflexivity.
  - intros [_ ->]. reflexivity.
  - discriminate.
  - intros [H _]. discriminate.
Qed.

Lemma exec_digits_some (n : nat) (re : list JS.re_item) (s : string)
    (gs : list string) :
  JS.exec (JS.Digits n :: re) s = Some gs
  <-> exists g rest gs', s = (g ++ rest)%string /\ digit_string n g
                         /\ JS.exec re rest = Some gs' /\ gs = g :: gs'.
Proof.
  rewrite exec_digits. split.
  - destruct (JS.take_digits n s) as [[g rest] |] eqn:Ht; [| discriminate].
    apply take_digits_spec in Ht. destruct Ht as [-> Hg].
    destruct (JS.exec re rest) as [gs' |] eqn:He; [| discriminate].
    intros H. injection H as <-. exists g, rest, gs'. auto.
  - intros [g [rest [gs' [Hs [Hg [He ->]]]]]].
    assert (Ht : JS.take_digits n s = Some (g, rest))
      by (apply take_digits_spec; auto).
    rewrite Ht, He. reflexivity.
Qed.

(** The pattern matches exactly the texts of the ISO shape, and captures
    the three digit groups. *)
Lemma exec_ISO_DATE_RE (text : string) (gs : list string) :
  JS.exec ISO_DATE_RE text = Some gs
  <-> exists g1 g2 g3, gs = [g1; g2; g3] /\ iso_shape text g1 g2 g3.
Proof.
  unfold ISO_DATE_RE, iso_shape. split.
  - intros H.
    apply exec_digits_some in H. destruct H as [g1 [r1 [gs1 [-> [Hg1 [H ->]]]]]].
    apply exec_lit in H. destruct H as [r2 [-> H]].
    apply exec_digits_some in H. destruct H as [g2 [r3 [gs2 [-> [Hg2 [H ->]]]]]].
    apply exec_lit in H. destruct H as [r4 [-> H]].
    apply exec_digits_some in H. destruct H as [g3 [r5 [gs3 [-> [Hg3 [H ->]]]]]].
    apply exec_end in H. destruct H as [-> ->].
    exists g1, g2, g3. repeat split; try apply Hg1; try apply Hg2; try apply Hg3.
    assert (Hnil : forall g : string, (g ++ "")%string = g)
      by (induction g as [| c g IHg]; simpl; [| rewrite IHg]; reflexivity).
    rewrite Hnil. reflexivity.
  - intros [g1 [g2 [g3 [-> [Hg1 [Hg2 [Hg3 ->]]]]]]].
    apply exec_digits_some. exists g1, ("-" ++ g2 ++ "-" ++ g3)%string, [g2; g3].
    refine (conj eq_refl (conj Hg1 (conj _ eq_refl))).
    apply exec_lit. exists (g2 ++ "-" ++ g3)%string. split; [reflexivity |].
    apply exec_digits_some. exists g2, ("-" ++ g3)%string, [g3].
    refine (conj eq_refl (conj Hg2 (conj _ eq_refl))).
    apply exec_lit. exists g3. split; [reflexivity |].
    apply exec_digits_some. exists g3, "", [].
    refine (conj _ (conj Hg3 (conj eq_refl eq_refl))).
    clear Hg3. induction g3 as [| c g IHg]; simpl; [| rewrite <- IHg]; reflexivity.
Qed.

End IsoText.

Section ParseIsoDate.

(** The first test of [parseIsoDate] is subsumed by the pattern: the empty
    text does not match. *)
Lemma parseIsoDate_exec (text : string) :
  parseIsoDate (Some text) =
    match JS.exec ISO_DATE_RE text with
    | Some [g1; g2; g3] =>
        if JS.not_number (JS.Number g1)
           || (JS.Number g2 <? 1) || (JS.Number g2 >? 12)
           || (JS.Number g3 <? 1) || (JS.Number g3 >? 31)
        then None
        else Some (mkDateParts (JS.Number g1) (JS.Number g2) (JS.Number g3))
    | _ => None
    end.
Proof.
  unfold parseIsoDate. destruct text; reflexivity.
Qed.

Lemma range_test (y m d : Z) :
  JS.not_number y || (m <? 1) || (m >? 12) || (d <? 1) || (d >? 31) = false
  <-> y <> 0 /\ 1 <= m <= 12 /\ 1 <= d <= 31.
Proof.
  unfold JS.not_number.
  rewrite !orb_false_iff, Z.eqb_neq, !Z.ltb_ge, !Z.gtb_ltb, !Z.ltb_ge. lia.
Qed.

Lemma parseIsoDate_some (text : string) (parts : DateParts) :
  parseIsoDate (Some text) = Some parts
  <-> exists g1 g2 g3,
        iso_shape text g1 g2 g3
        /\ parts = mkDateParts (JS.Number g1) (JS.Number g2) (JS.Number g3)
        /\ JS.Number g1 <> 0
        /\ 1 <= JS.Number g2 <= 12
        /\ 1 <= JS.Number g3 <= 31.
Proof.
  rewrite parseIsoDate_exec. split.
  - destruct (JS.exec ISO_DATE_RE text) as [gs |] eqn:He; [| discriminate].
    apply exec_ISO_DATE_RE in He. destruct He as [g1 [g2 [g3 [-> Hshape]]]].
    destruct (JS.not_number (JS.Number g1) || (JS.Number g2 <? 1)
              || (JS.Number g2 >? 12) || (JS.Number g3 <? 1)
              || (JS.Number g3 >? 31)) eqn:Hrange; [discriminate |].
    apply range_test in Hrange.
    intros H. injection H as <-. exists g1, g2, g3. tauto.
  - intros [g1 [g2 [g3 [Hshape [-> Hrange]]]]].
    assert (He : JS.exec ISO_DATE_RE text = Some [g1; g2; g3])
      by (apply exec_ISO_DATE_RE; exists g1, g2, g3; auto).
    rewrite He. apply range_test in Hrange. rewrite Hrange. reflexivity.
Qed.

End ParseIsoDate.

(** C4: [parseIsoDate] returns date parts exactly for a text of the shape
    four digits, '-', two digits, '-', two digits whose year is not zero,
    whose month is within 1..12 and whose day is within 1..31, and the parts
    are the three numbers read; on every other text, the empty one and an
    absent one included, it returns nothing.  The day is not checked against
    the month: "2023-02-30" is read as (2023, 2, 30). *)
Theorem parseIsoDate_accepts :
  (forall (text : string) (parts : DateParts),
      parseIsoDate (Some text) = Some parts
      <-> exists g1 g2 g3,
            iso_shape text g1 g2 g3
            /\ parts = mkDateParts (JS.Number g1) (JS.Number g2) (JS.Number g3)
            /\ JS.Number g1 <> 0
            /\ 1 <= JS.Number g2 <= 12
            /\ 1 <= JS.Number g3 <= 31)
  /\ (forall text : string,
      parseIsoDate (Some text) = None
      <-> ~ exists g1 g2 g3,
            iso_shape text g1 g2 g3
            /\ JS.Number g1 <> 0
            /\ 1 <= JS.Number g2 <= 12
            /\ 1 <= JS.Number g3 <= 31)
  /\ parseIsoDate None = None
  /\ parseIsoDate (Some "") = None
  /\ parseIsoDate (Some "2023-02-30") = Some (mkDateParts 2023 2 30)
  /\ parseIsoDate (Some "abc") = None
  /\ parseIsoDate (Some "2024/01/01") = None
  /\ parseIsoDate (Some "2024-13-01") = None
  /\ parseIsoDate (Some "0000-01-01") = None.
Proof.
  split; [exact parseIsoDate_some |].
  split; [| repeat split; reflexivity].
  intros text. split.
  - intros Hnone [g1 [g2 [g3 [Hshape Hrange]]]].
    assert (Hsome : parseIsoDate (Some text)
                    = Some (mkDateParts (JS.Number g1) (JS.Number g2) (JS.Number g3)))
      by (apply parseIsoDate_some; exists g1, g2, g3; auto).
    congruence.
  - intros Hno. destruct (parseIsoDate (Some text)) as [parts |] eqn:Hp;
      [| reflexivity].
    exfalso. apply Hno. apply parseIsoDate_some in Hp.
    destruct Hp as [g1 [g2 [g3 [Hshape [_ Hrange]]]]].
    exists g1, g2, g3. auto.
Qed.

(** ** Formatting and reading back *)

Section RoundTrip.

Lemma decimal_digits_last (n : Z) (acc : string) :
  n < 10 -> JS.decimal_digits n acc = String (JS.digit_char n) acc.
Proof.
  intros Hn. simp decimal_digits.
  destruct (Z_lt_dec n 10); [reflexivity | contradiction].
Qed.

Lemma decimal_digits_more (n : Z) (acc : string) :
  10 <= n ->
  JS.decimal_digits n acc
  = JS.decimal_digits (n / 10) (String (JS.digit_char (n mod 10)) acc).
Proof.
  intros Hn. rewrite JS.decimal_digits_equation_1.
  destruct (Z_lt_dec n 10); [lia | reflexivity].
Qed.

Lemma digit_char_digit (d : Z) :
  0 <= d <= 9 ->
  JS.is_digit (JS.digit_char d) = true /\ JS.digit_value (JS.digit_char d) = d.
Proof.
  intros Hd.
  assert (Hcases : d = 0 \/ d = 1 \/ d = 2 \/ d = 3 \/ d = 4 \/ d = 5
                   \/ d = 6 \/ d = 7 \/ d = 8 \/ d = 9) by lia.
  repeat (destruct Hcases as [-> | Hcases]; [split; reflexivity |]).
  subst d. split; reflexivity.
Qed.

(** Every year of four digits prints as its four digits. *)
Lemma toString_four_digits (y : Z) :
  1000 <= y <= 9999 ->
  digit_string 4 (JS.toString y) /\ JS.Number (JS.toString y) = y.
Proof.
  intros Hy. unfold JS.toString.
  replace (y <? 0) with false by (symmetry; apply Z.ltb_ge; lia).
  assert (H1 : 10 <= y) by lia.
  assert (H2 : 10 <= y / 10) by (Z.div_mod_to_equations; lia).
  assert (H3 : 10 <= y / 10 / 10) by (Z.div_mod_to_equations; lia).
  assert (H4 : 0 <= y / 10 / 10 / 10 <= 9) by (Z.div_mod_to_equations; lia).
  rewrite (decimal_digits_more y), (decimal_digits_more (y / 10)),
    (decimal_digits_more (y / 10 / 10)), decimal_digits_last by lia.
  destruct (digit_char_digit (y / 10 / 10 / 10) H4) as [Ha Va].
  destruct (digit_char_digit ((y / 10 / 10) mod 10)) as [Hb Vb];
    [Z.div_mod_to_equations; lia |].
  destruct (digit_char_digit ((y / 10) mod 10)) as [Hc Vc];
    [Z.div_mod_to_equations; lia |].
  destruct (digit_char_digit (y mod 10)) as [He Ve];
    [Z.div_mod_to_equations; lia |].
  unfold digit_string, JS.Number. cbn [String.length digits_only JS.Number_from].
  rewrite Ha, Hb, Hc, He, Va, Vb, Vc, Ve.
  repeat split. Z.div_mod_to_equations. lia.
Qed.

(** Every number below 100 prints, padded, as two digits. *)
Lemma toTwoDigit_two_digits (v : Z) :
  0 <= v <= 99 ->
  digit_string 2 (toTwoDigit v) /\ JS.Number (toTwoDigit v) = v.
Proof.
  intros Hv. unfold toTwoDigit, JS.toString.
  replace (v <? 0) with false by (symmetry; apply Z.ltb_ge; lia).
  destruct (Z_lt_dec v 10) as [Hlt | Hge].
  - rewrite decimal_digits_last by exact Hlt.
    destruct (digit_char_digit v) as [Ha Va]; [lia |].
    unfold digit_string, JS.Number, JS.padStart.
    cbn. rewrite Ha, Va. repeat split.
  - rewrite decimal_digits_more, decimal_digits_last
      by (Z.div_mod_to_equations; lia).
    destruct (digit_char_digit (v / 10)) as [Ha Va];
      [Z.div_mod_to_equations; lia |].
    destruct (digit_char_digit (v mod 10)) as [Hb Vb];
      [Z.div_mod_to_equations; lia |].
    unfold digit_string, JS.Number, JS.padStart.
    cbn [String.length Nat.leb digits_only JS.Number_from].
    rewrite Ha, Hb, Va, Vb. repeat split.
    Z.div_mod_to_equations. lia.
Qed.

(** A number of five digits or more prints with at least five digits in
    front. *)
Lemma decimal_digits_five (n : Z) (acc : string) :
  10000 <= n ->
  exists a b c d e rest,
    JS.decimal_digits n acc
    = String a (String b (String c (String d (String e rest))))
    /\ JS.is_digit a = true /\ JS.is_digit b = true /\ JS.is_digit c = true
    /\ JS.is_digit d = true /\ JS.is_digit e = true.
Proof.
  funelim (JS.decimal_digits n acc); intros Hn; [lia |].
  destruct (Z_le_dec 10000 (n / 10)) as [Hbig | Hsmall].
  - match goal with IH : 10000 <= _ -> _ |- _ => exact (IH Hbig) end.
  - assert (H1 : 10 <= n / 10) by (Z.div_mod_to_equations; lia).
    assert (H2 : 10 <= n / 10 / 10) by (Z.div_mod_to_equations; lia).
    assert (H3 : 10 <= n / 10 / 10 / 10) by (Z.div_mod_to_equations; lia).
    assert (H4 : 0 <= n / 10 / 10 / 10 / 10 <= 9) by (Z.div_mod_to_equations; lia).
    rewrite (decimal_digits_more (n / 10)), (decimal_digits_more (n / 10 / 10)),
      (decimal_digits_more (n / 10 / 10 / 10)), decimal_digits_last by lia.
    do 6 eexists. split; [reflexivity |].
    repeat split; apply digit_char_digit; Z.div_mod_to_equations; lia.
Qed.

Lemma digit_not_dash (c : ascii) : JS.is_digit c = true -> Ascii.eqb "-" c = false.
Proof.
  intros Hc. destruct (Ascii.eqb_spec "-" c) as [<- | _]; [discriminate | reflexivity].
Qed.

(** A year outside 1000..9999 is printed with fewer or more than four digits
    (or with a sign), and the text is not read back, whatever the month and
    the day. *)
Lemma parseIsoDate_format_other_years (y m d : Z) :
  ~ 1000 <= y <= 9999 -> parseIsoDate (Some (formatIsoDate y m d)) = None.
Proof.
  intros Hy. rewrite parseIsoDate_exec.
  unfold formatIsoDate, JS.toString.
  set (tail := ("-" ++ toTwoDigit m ++ "-" ++ toTwoDigit d)%string).
  destruct (y <? 0) eqn:Hneg.
  - reflexivity.
  - apply Z.ltb_ge in Hneg.
    destruct (Z_le_dec 10000 y) as [Hbig | Hsmall].
    + destruct (decimal_digits_five y "" Hbig)
        as [a [b [c [e [f [rest [-> [Ha [Hb [Hc [He Hf]]]]]]]]]]].
      unfold ISO_DATE_RE. rewrite exec_digits.
      cbn [JS.take_digits append]. rewrite Ha, Hb, Hc, He.
      cbn [JS.exec]. rewrite (digit_not_dash f Hf). reflexivity.
    + assert (Hlt : y < 1000) by lia.
      assert (Hdash : JS.is_digit "-" = false) by reflexivity.
      destruct (Z_lt_dec y 10) as [H10 | H10];
        [| destruct (Z_lt_dec y 100) as [H100 | H100]].
      * rewrite decimal_digits_last by exact H10.
        unfold ISO_DATE_RE, tail. rewrite exec_digits.
        cbn [JS.take_digits append]. rewrite Hdash.
        repeat match goal with
               | |- context [JS.is_digit (JS.digit_char ?x)] =>
                   destruct (JS.is_digit (JS.digit_char x))
               end; reflexivity.
      * rewrite decimal_digits_more, decimal_digits_last
          by (Z.div_mod_to_equations; lia).
        unfold ISO_DATE_RE, tail. rewrite exec_digits.
        cbn [JS.take_digits append]. rewrite Hdash.
        repeat match goal with
               | |- context [JS.is_digit (JS.digit_char ?x)] =>
                   destruct (JS.is_digit (JS.digit_char x))
               end; reflexivity.
      * rewrite (decimal_digits_more y), decimal_digits_more, decimal_digits_last
          by (Z.div_mod_to_equations; lia).
        unfold ISO_DATE_RE, tail. rewrite exec_digits.
        cbn [JS.take_digits append]. rewrite Hdash.
        repeat match goal with
               | |- context [JS.is_digit (JS.digit_char ?x)] =>
                   destruct (JS.is_digit (JS.digit_char x))
               end; reflexivity.
Qed.

End RoundTrip.

(** C1, as the code has it: for a year of four digits (1000..9999), a month
    within 1..12 and a day within 1..[getDaysInMonth y m], the text made by
    [formatIsoDate] has the ISO shape, is ten characters long, and
    [parseIsoDate] reads it back as the same year, month and day. *)
Theorem parse_format_roundtrip (y m d : Z) :
  1000 <= y <= 9999 ->
  1 <= m <= 12 ->
  1 <= d <= getDaysInMonth y m ->
  parseIsoDate (Some (formatIsoDate y m d)) = Some (mkDateParts y m d)
  /\ String.length (formatIsoDate y m d) = 10%nat
  /\ iso_shape (formatIsoDate y m d) (JS.toString y) (toTwoDigit m) (toTwoDigit d).
Proof.
  intros Hy Hm Hd.
  pose proof (getDaysInMonth_bounds y m) as Hdim.
  destruct (toString_four_digits y Hy) as [Hg1 Hn1].
  destruct (toTwoDigit_two_digits m) as [Hg2 Hn2]; [lia |].
  destruct (toTwoDigit_two_digits d) as [Hg3 Hn3]; [lia |].
  assert (Hshape : iso_shape (formatIsoDate y m d)
                     (JS.toString y) (toTwoDigit m) (toTwoDigit d))
    by (unfold iso_shape, formatIsoDate; auto).
  split; [| split; [| exact Hshape]].
  - apply parseIsoDate_some.
    exists (JS.toString y), (toTwoDigit m), (toTwoDigit d).
    rewrite Hn1, Hn2, Hn3.
    split; [exact Hshape |]. split; [reflexivity |]. lia.
  - unfold formatIsoDate.
    assert (Hlen : forall a b : string,
               String.length (a ++ b) = (String.length a + String.length b)%nat)
      by (induction a as [| c a IHa]; intros b; simpl; [| rewrite IHa]; reflexivity).
    destruct Hg1 as [L1 _], Hg2 as [L2 _], Hg3 as [L3 _].
    rewrite !Hlen, L1, L2, L3. reflexivity.
Qed.

Lemma parse_format_roundtrip_witness :
  1000 <= 2024 <= 9999 /\ 1 <= 2 <= 12 /\ 1 <= 29 <= getDaysInMonth 2024 2
  /\ formatIsoDate 2024 2 29 = "2024-02-29"
  /\ parseIsoDate (Some (formatIsoDate 2024 2 29)) = Some (mkDateParts 2024 2 29).
Proof.
  split; [lia |]. split; [lia |]. split; [vm_compute; split; discriminate |].
  split; [reflexivity |].
  apply (parse_format_roundtrip 2024 2 29); [lia | lia |].
  vm_compute; split; discriminate.
Defined.

(** C1 as stated fails for a positive year that is not written with four
    digits: the year is printed without padding, so (999, 1, 1) gives
    "999-01-01" and (10000, 1, 1) gives "10000-01-01", and neither text is
    read back. *)
Lemma parse_format_year_width_counterexample :
  (0 < 999 /\ 1 <= 1 <= 12 /\ 1 <= 1 <= getDaysInMonth 999 1)
  /\ formatIsoDate 999 1 1 = "999-01-01"
  /\ parseIsoDate (Some (formatIsoDate 999 1 1)) = None
  /\ parseIsoDate (Some (formatIsoDate 999 1 1)) <> Some (mkDateParts 999 1 1)
  /\ formatIsoDate 10000 1 1 = "10000-01-01"
  /\ parseIsoDate (Some (formatIsoDate 10000 1 1)) = None.
Proof.
  split; [split; [lia | split; [lia | vm_compute; split; discriminate]] |].
  split; [reflexivity |].
  split; [reflexivity |].
  split; [discriminate |].
  split; reflexivity.
Qed.

(** ** Sample values asserted by the repository's tests *)

Section RepositoryTests.

Let today : DateParts := mkDateParts 2024 6 10.

(** What [buildMonthOptions] makes of the twelve English month names. *)
Let months : list MonthOption :=
  [mkMonthOption 1 "January"; mkMonthOption 2 "February";
   mkMonthOption 3 "March"; mkMonthOption 4 "April";
   mkMonthOption 5 "May"; mkMonthOption 6 "June";
   mkMonthOption 7 "July"; mkMonthOption 8 "August";
   mkMonthOption 9 "September"; mkMonthOption 10 "October";
   mkMonthOption 11 "November"; mkMonthOption 12 "December"].

Example test_available_months :
  map value (getAvailableMonths months (Some 2024) today) = [1; 2; 3; 4; 5; 6]
  /\ map value (getAvailableMonths months (Some 2023) today) = map value months.
Proof. split; reflexivity. Qed.

Example test_available_days :
  last (getAvailableDays (Some 2024) (Some 6) today) 0 = 10
  /\ last (getAvailableDays (Some 2024) (Some 5) today) 0 = 31.
Proof. split; reflexivity. Qed.

Example test_max_month :
  getMaxMonthForYear (Some 2024) today = 6
  /\ getMaxMonthForYear (Some 2023) today = 12.
Proof. split; reflexivity. Qed.

Example test_max_day :
  getMaxDayForSelection (Some 2024) (Some 6) today = 10
  /\ getMaxDayForSelection (Some 2024) (Some 2) today = 29.
Proof. split; reflexivity. Qed.

Example test_filter_days :
  filterNumberOptions (JS.array_from 31 (fun index => index + 1)) "3"
  = [3; 13; 23; 30; 31].
Proof. reflexivity. Qed.

Example test_filter_months :
  map label (filterMonthOptions months "Ma") = ["March"; "May"].
Proof. reflexivity. Qed.

End RepositoryTests.

(** * Further properties of the code *)

(** ** Calendar engine *)

Lemma divide_shift (d y k : Z) : (d | 400) -> (d | y + 400 * k) <-> (d | y).
Proof.
  intros Hd.
  assert (Hk : (d | 400 * k)) by (apply Z.divide_mul_l; exact Hd).
  split; intros H.
  - replace y with (y + 400 * k - 400 * k) by lia. apply Z.divide_sub_r; assumption.
  - apply Z.divide_add_r; assumption.
Qed.

Lemma bool_eq_iff (a b : bool) : (a = true <-> b = true) -> a = b.
Proof. destruct a, b; intros [H1 H2]; auto; symmetry; auto. Qed.

(** X1: the leap years repeat every 400 years, and a year and its negative
    are leap years together. *)
Theorem isLeapYear_cycle (y k : Z) :
  isLeapYear (y + 400 * k) = isLeapYear y
  /\ isLeapYear (- y) = isLeapYear y.
Proof.
  split; apply bool_eq_iff; rewrite !isLeapYear_divide.
  - rewrite !divide_shift
      by first [exists 1; reflexivity | exists 4; reflexivity | exists 100; reflexivity].
    tauto.
  - rewrite !Z.divide_opp_r. tauto.
Qed.

(** X2: [getDaysInMonth] answers for every month number, within 28..31; a
    month outside 1..12 counts 31 days; and only February depends on the
    year. *)
Theorem getDaysInMonth_total (y y' m : Z) :
  28 <= getDaysInMonth y m <= 31
  /\ (m < 1 \/ 12 < m -> getDaysInMonth y m = 31)
  /\ (m <> 2 -> getDaysInMonth y m = getDaysInMonth y' m).
Proof.
  split; [apply getDaysInMonth_bounds |].
  unfold getDaysInMonth.
  destruct m as [| p | p]; [split; auto | | split; auto].
  do 4 (try destruct p as [p | p |]); split; intros H; try reflexivity; lia.
Qed.

(** ** Range policy *)

(** X3: [getMaxDayForSelection] never exceeds 31 nor the length of the month
    it looked up, is at least 1 as soon as [today.day] is, and never exceeds
    [today.day] for today's own year and month. *)
Theorem getMaxDayForSelection_bounds
    (selectedYear selectedMonth : option Z) (today : DateParts) :
  getMaxDayForSelection selectedYear selectedMonth today <= 31
  /\ (1 <= day today ->
      1 <= getMaxDayForSelection selectedYear selectedMonth today)
  /\ (forall m, selectedMonth = Some m -> m <> 0 ->
      getMaxDayForSelection selectedYear selectedMonth today
      <= getDaysInMonth (JS.nullish selectedYear FALLBACK_YEAR) m)
  /\ (selectedYear = Some (year today) -> selectedMonth = Some (month today) ->
      month today <> 0 ->
      getMaxDayForSelection selectedYear selectedMonth today <= day today).
Proof.
  assert (Hgen : forall m, m <> 0 ->
            let r := getMaxDayForSelection selectedYear (Some m) today in
            let dim := getDaysInMonth (JS.nullish selectedYear FALLBACK_YEAR) m in
            28 <= dim <= 31 /\ (r = dim \/ r = Z.min (day today) dim)).
  { intros m Hm r dim. split; [apply getDaysInMonth_bounds |].
    unfold r. rewrite getMaxDayForSelection_month by exact Hm. cbv zeta.
    fold dim. destruct (_ && _); auto. }
  destruct selectedMonth as [m |].
  - destruct (Z.eq_dec m 0) as [-> | Hm].
    + split; [cbn; lia |]. split; [intros _; cbn; lia |].
      split; [intros m Hm Hm0; congruence |].
      intros _ Hmt Hm0. injection Hmt as Hmt. congruence.
    + destruct (Hgen m Hm) as [Hdim Hr]. cbv zeta in Hr.
      split; [lia |]. split; [lia |]. split.
      * intros m' Hm' _. injection Hm' as <-. lia.
      * intros -> Hmt _. injection Hmt as ->.
        rewrite getMaxDayForSelection_month by exact Hm. cbv zeta.
        simpl JS.strict_eq. rewrite !Z.eqb_refl. simpl. lia.
  - split; [cbn; lia |]. split; [intros _; cbn; lia |].
    split; [intros m Hm; discriminate | intros _ Hm; discriminate].
Qed.

Lemma array_from_count_to (n : Z) :
  JS.array_from n (fun index => index + 1) = count_to n.
Proof. reflexivity. Qed.

Lemma count_to_In (n d : Z) : In d (count_to n) <-> 1 <= d <= n.
Proof.
  unfold count_to. rewrite in_map_iff. split.
  - intros [i [<- Hi]]. apply in_seq in Hi. lia.
  - intros Hd. exists (Z.to_nat (d - 1)). split; [lia |]. apply in_seq. lia.
Qed.

Lemma getAvailableDays_count_to
    (selectedYear selectedMonth : option Z) (today : DateParts) :
  getAvailableDays selectedYear selectedMonth today
  = count_to (getMaxDayForSelection selectedYear selectedMonth today).
Proof.
  unfold getAvailableDays.
  destruct (JS.not_opt_number selectedMonth) eqn:Hm; [| reflexivity].
  destruct selectedMonth as [m |]; [| reflexivity].
  unfold getMaxDayForSelection. simpl in Hm. rewrite Hm. reflexivity.
Qed.

(** X4: the days offered are exactly 1, 2, ..., [getMaxDayForSelection], in
    this order, for every selection (month selected or not): a day is
    offered exactly when it lies between 1 and that maximum. *)
Theorem getAvailableDays_range
    (selectedYear selectedMonth : option Z) (today : DateParts) :
  let maxDay := getMaxDayForSelection selectedYear selectedMonth today in
  getAvailableDays selectedYear selectedMonth today = count_to maxDay
  /\ (forall d : Z,
        In d (getAvailableDays selectedYear selectedMonth today)
        <-> 1 <= d <= maxDay)
  /\ List.length (getAvailableDays selectedYear selectedMonth today)
     = Z.to_nat maxDay.
Proof.
  intros maxDay. rewrite getAvailableDays_count_to. fold maxDay.
  split; [reflexivity |]. split; [intros d; apply count_to_In |].
  unfold count_to. rewrite length_map, length_seq. reflexivity.
Qed.

(** ** Option builders *)

Lemma buildYearOptions_run (minYear maxYear : Z) :
  buildYearOptions minYear maxYear = countdown maxYear (Z.min minYear maxYear).
Proof.
  unfold buildYearOptions. cbv zeta.
  rewrite buildYearOptions_loop_countdown. reflexivity.
Qed.

Lemma countdown_NoDup (hi lo : Z) : NoDup (countdown hi lo).
Proof.
  remember (Z.to_nat (hi - lo + 1)) as n eqn:Hn.
  revert hi Hn. induction n as [| n IH]; intros hi Hn.
  - rewrite countdown_empty by lia. constructor.
  - rewrite countdown_step by lia. constructor.
    + rewrite countdown_In. lia.
    + apply IH. lia.
Qed.

(** X5: the list of years is never empty and starts with [maxYear]; it holds
    exactly the years from [min minYear maxYear] to [maxYear], each once, every
    entry one less than the entry before. *)
Theorem buildYearOptions_range (minYear maxYear : Z) :
  hd_error (buildYearOptions minYear maxYear) = Some maxYear
  /\ (forall y : Z,
        In y (buildYearOptions minYear maxYear)
        <-> Z.min minYear maxYear <= y <= maxYear)
  /\ List.length (buildYearOptions minYear maxYear)
     = Z.to_nat (maxYear - Z.min minYear maxYear + 1)
  /\ (forall i : nat,
        (i < List.length (buildYearOptions minYear maxYear))%nat ->
        nth i (buildYearOptions minYear maxYear) 0 = maxYear - Z.of_nat i)
  /\ NoDup (buildYearOptions minYear maxYear).
Proof.
  rewrite buildYearOptions_run.
  split; [rewrite countdown_step by lia; reflexivity |].
  split; [intros y; apply countdown_In |].
  split; [apply countdown_length |].
  split.
  - intros i Hi. rewrite countdown_length in Hi. apply countdown_nth, Hi.
  - apply countdown_NoDup.
Qed.

Section MonthOptions.

Variable supportedLocale : string -> bool.
Variable formatMonth : string -> Z -> string.

Lemma map_index_from_length {A B : Type} (from : Z) (f : A -> Z -> B) (l : list A) :
  List.length (JS.map_index_from from f l) = List.length l.
Proof.
  revert from. induction l as [| x r IH]; intros from; simpl; [| rewrite IH];
    reflexivity.
Qed.

Lemma map_index_from_values (from : Z) (names : list string) :
  map value
    (JS.map_index_from from (fun label index => mkMonthOption (index + 1) label)
       names)
  = map (fun i => from + Z.of_nat i + 1) (seq 0 (List.length names)).
Proof.
  revert from. induction names as [| x r IH]; intros from; [reflexivity |].
  cbn [JS.map_index_from map List.length seq]. rewrite IH.
  f_equal; [cbn; lia |].
  rewrite <- seq_shift, map_map. apply map_ext. intros i. lia.
Qed.

Lemma map_index_from_labels (from : Z) (names : list string) :
  map label
    (JS.map_index_from from (fun label index => mkMonthOption (index + 1) label)
       names)
  = names.
Proof.
  revert from. induction names as [| x r IH]; intros from; [reflexivity |].
  cbn [JS.map_index_from map]. rewrite IH. reflexivity.
Qed.

Lemma buildMonthOptions_length
    (locale : string) (monthNames : option (list string)) :
  List.length (buildMonthOptions supportedLocale formatMonth locale monthNames)
  = 12%nat.
Proof.
  unfold buildMonthOptions, JS.map_index. cbv zeta.
  rewrite map_index_from_length.
  destruct monthNames as [given |]; [| reflexivity].
  destruct (12 <=? List.length given)%nat eqn:Hlen; [| reflexivity].
  apply Nat.leb_le in Hlen.
  rewrite map_index_from_length. unfold JS.slice0.
  rewrite length_firstn. lia.
Qed.

Lemma buildMonthOptions_value_list
    (locale : string) (monthNames : option (list string)) :
  map value (buildMonthOptions supportedLocale formatMonth locale monthNames)
  = [1; 2; 3; 4; 5; 6; 7; 8; 9; 10; 11; 12].
Proof.
  pose proof (buildMonthOptions_length locale monthNames) as Hlen.
  unfold buildMonthOptions, JS.map_index in *. cbv zeta in *.
  rewrite map_index_from_values.
  rewrite map_index_from_length in Hlen. rewrite Hlen. reflexivity.
Qed.

(** X6: whatever the locale and the month names given, [buildMonthOptions]
    returns twelve options whose values are 1, 2, ..., 12 in this order. *)
Theorem buildMonthOptions_values
    (locale : string) (monthNames : option (list string)) :
  map value (buildMonthOptions supportedLocale formatMonth locale monthNames)
  = [1; 2; 3; 4; 5; 6; 7; 8; 9; 10; 11; 12]
  /\ List.length (buildMonthOptions supportedLocale formatMonth locale monthNames)
     = 12%nat.
Proof.
  split; [apply buildMonthOptions_value_list | apply buildMonthOptions_length].
Qed.

Lemma name_kept (name : string) :
  negb (JS.not_string name) && (0 <? String.length (JS.trim name))%nat
  = negb (white_space_only name).
Proof.
  destruct (white_space_only name) eqn:Hws.
  - apply trim_empty in Hws. rewrite Hws. apply andb_false_r.
  - assert (Htrim : JS.trim name <> "")
      by (intros H; apply trim_empty in H; congruence).
    destruct name as [| c r]; [discriminate |].
    destruct (JS.trim (String c r)); [congruence | reflexivity].
Qed.

Lemma map_index_from_ext {A B : Type} (from : Z) (f g : A -> Z -> B) (l : list A) :
  (forall x i, In x l -> f x i = g x i) ->
  JS.map_index_from from f l = JS.map_index_from from g l.
Proof.
  revert from. induction l as [| x r IH]; intros from Hfg; [reflexivity |].
  cbn [JS.map_index_from]. rewrite Hfg by (left; reflexivity).
  rewrite IH; [reflexivity |]. intros y i Hy. apply Hfg. right. exact Hy.
Qed.

Lemma map_index_from_id {A : Type} (from : Z) (l : list A) :
  JS.map_index_from from (fun x _ => x) l = l.
Proof.
  revert from. induction l as [| x r IH]; intros from; [reflexivity |].
  cbn [JS.map_index_from]. rewrite IH. reflexivity.
Qed.

(** X7: the labels.  With twelve names or more, the first twelve are the
    labels, except that a name that is empty or white space only is replaced
    by what the formatter prints for its index; so twelve proper names are
    taken as they are, whatever the locale.  With no names or fewer than
    twelve, all twelve labels come from the formatter.  The formatter is the
    one of the locale given when that is supported, and of "en-AU"
    otherwise. *)
Theorem buildMonthOptions_labels
    (locale : string) (monthNames : option (list string)) :
  let resolved := if supportedLocale locale then locale else "en-AU" in
  let labels :=
    map label (buildMonthOptions supportedLocale formatMonth locale monthNames) in
  (forall given, monthNames = Some given -> (12 <= List.length given)%nat ->
     labels
     = JS.map_index
         (fun name index =>
            if white_space_only name then formatMonth resolved index else name)
         (firstn 12 given))
  /\ (forall given, monthNames = Some given -> (12 <= List.length given)%nat ->
      (forall name, In name (firstn 12 given) -> white_space_only name = false) ->
      labels = firstn 12 given)
  /\ (monthNames = None
      \/ (exists given, monthNames = Some given /\ (List.length given < 12)%nat) ->
      labels
      = map (formatMonth resolved) [0; 1; 2; 3; 4; 5; 6; 7; 8; 9; 10; 11]).
Proof.
  intros resolved labels.
  assert (Hgiven : forall given, monthNames = Some given ->
            (12 <= List.length given)%nat ->
            labels
            = JS.map_index
                (fun name index =>
                   if white_space_only name then formatMonth resolved index
                   else name)
                (firstn 12 given)).
  { intros given -> Hlen. unfold labels, buildMonthOptions, JS.map_index.
    cbv zeta. rewrite map_index_from_labels.
    apply Nat.leb_le in Hlen. rewrite Hlen. unfold JS.slice0.
    apply map_index_from_ext. intros name i _. rewrite name_kept.
    destruct (white_space_only name); reflexivity. }
  split; [exact Hgiven |]. split.
  - intros given Hsome Hlen Hproper. rewrite (Hgiven given Hsome Hlen).
    unfold JS.map_index.
    rewrite (map_index_from_ext 0 _ (fun x _ => x)).
    + apply map_index_from_id.
    + intros name i Hin. rewrite (Hproper name Hin). reflexivity.
  - intros Hfew. unfold labels, buildMonthOptions, JS.map_index. cbv zeta.
    rewrite map_index_from_labels.
    destruct Hfew as [-> | [given [-> Hlen]]]; [reflexivity |].
    apply Nat.leb_gt in Hlen. rewrite Hlen. reflexivity.
Qed.

End MonthOptions.

(** ** Availability of months *)

Lemma filter_all {A : Type} (f : A -> bool) (l : list A) :
  (forall x, In x l -> f x = true) -> filter f l = l.
Proof.
  induction l as [| x r IH]; intros Hall; [reflexivity |].
  simpl. rewrite Hall by (left; reflexivity).
  rewrite IH; [reflexivity |]. intros y Hy. apply Hall. right. exact Hy.
Qed.

Lemma filter_idempotent {A : Type} (f : A -> bool) (l : list A) :
  filter f (filter f l) = filter f l.
Proof.
  apply filter_all. intros x Hx. apply filter_In in Hx. apply Hx.
Qed.

Lemma map_value_filter (bound : Z) (options : list MonthOption) :
  map value (filter (fun option => value option <=? bound) options)
  = filter (fun v => v <=? bound) (map value options).
Proof.
  induction options as [| o r IH]; [reflexivity |].
  simpl. destruct (value o <=? bound); simpl; rewrite IH; reflexivity.
Qed.

Lemma subsequence_refl {A : Type} (l : list A) : subsequence l l.
Proof. induction l; constructor; assumption. Qed.

Lemma filter_subsequence {A : Type} (f : A -> bool) (l : list A) :
  subsequence (filter f l) l.
Proof.
  induction l as [| x r IH]; simpl; [constructor |].
  destruct (f x); constructor; exact IH.
Qed.

(** X8: [getAvailableMonths] keeps, in their order, exactly the options whose
    value does not exceed [getMaxMonthForYear].  On the twelve options that
    [buildMonthOptions] makes: for today's year (not 0) and a month of today
    within 1..12 the values left are 1, ..., [today.month]; for an absent
    year, the year 0 or any other year all twelve options are left. *)
Theorem getAvailableMonths_built
    (supportedLocale : string -> bool) (formatMonth : string -> Z -> string)
    (locale : string) (monthNames : option (list string))
    (selectedYear : option Z) (today : DateParts) :
  let options := buildMonthOptions supportedLocale formatMonth locale monthNames in
  (forall (given : list MonthOption) (option : MonthOption),
      subsequence (getAvailableMonths given selectedYear today) given
      /\ (In option (getAvailableMonths given selectedYear today)
          <-> In option given
              /\ value option <= getMaxMonthForYear selectedYear today))
  /\ (selectedYear = Some (year today) -> year today <> 0 ->
      1 <= month today <= 12 ->
      map value (getAvailableMonths options selectedYear today)
      = count_to (month today))
  /\ (selectedYear = None \/ selectedYear = Some 0
      \/ (exists y, selectedYear = Some y /\ y <> year today) ->
      getAvailableMonths options selectedYear today = options).
Proof.
  intros options.
  pose proof (buildMonthOptions_value_list supportedLocale formatMonth locale
                monthNames) as Hvalues.
  fold options in Hvalues.
  split; [| split].
  - intros given option. unfold getAvailableMonths. cbv zeta.
    split; [apply filter_subsequence |].
    rewrite filter_In, Z.leb_le. reflexivity.
  - intros -> Hy Hm. unfold getAvailableMonths. cbv zeta.
    rewrite getMaxMonthForYear_present by exact Hy.
    rewrite Z.eqb_refl, map_value_filter, Hvalues.
    destruct today as [ty tm td]. cbn [month] in *.
    assert (Hcases : tm = 1 \/ tm = 2 \/ tm = 3 \/ tm = 4 \/ tm = 5 \/ tm = 6
                     \/ tm = 7 \/ tm = 8 \/ tm = 9 \/ tm = 10 \/ tm = 11
                     \/ tm = 12) by lia.
    repeat (destruct Hcases as [-> | Hcases]; [reflexivity |]).
    subst tm. reflexivity.
  - intros Hyear.
    assert (Hmax : getMaxMonthForYear selectedYear today = 12).
    { destruct Hyear as [-> | [-> | [y [-> Hy]]]]; try reflexivity.
      unfold getMaxMonthForYear. simpl.
      destruct (JS.not_number y); [reflexivity |].
      apply Z.eqb_neq in Hy. rewrite Hy. reflexivity. }
    unfold getAvailableMonths. cbv zeta. rewrite Hmax.
    apply filter_all. intros o Ho. apply Z.leb_le.
    assert (Hin : In (value o) (map value options)) by (apply in_map; exact Ho).
    rewrite Hvalues in Hin. simpl in Hin.
    repeat (destruct Hin as [<- | Hin]; [lia |]). contradiction.
Qed.

(** ** Typeahead filters *)

(** X9: each filter, for every query, returns a subsequence of its options
    (nothing added, nothing reordered), and filtering the result again by
    the same query changes nothing. *)
Theorem filters_subsequence (input : string) :
  (forall options : list MonthOption,
      subsequence (filterMonthOptions options input) options
      /\ filterMonthOptions (filterMonthOptions options input) input
         = filterMonthOptions options input)
  /\ (forall options : list Z,
      subsequence (filterNumberOptions options input) options
      /\ filterNumberOptions (filterNumberOptions options input) input
         = filterNumberOptions options input)
  /\ (forall options : list Z,
      subsequence (filterYearOptions options input) options
      /\ filterYearOptions (filterYearOptions options input) input
         = filterYearOptions options input).
Proof.
  unfold filterMonthOptions, filterNumberOptions, filterYearOptions. cbv zeta.
  destruct (JS.not_string (normalizeFilterText input));
    repeat split;
    first [apply subsequence_refl | apply filter_subsequence
          | apply filter_idempotent | reflexivity].
Qed.

Lemma includes_unfold (s search : string) :
  JS.includes s search
  = JS.startsWith s search
    || match s with
       | EmptyString => false
       | String _ r => JS.includes r search
       end.
Proof. destruct s; reflexivity. Qed.

(** [includes] decides "something, [search], something". *)
Lemma includes_spec (s search : string) :
  JS.includes s search = true <-> contains s search.
Proof.
  unfold contains. split.
  - induction s as [| c r IH]; rewrite includes_unfold, orb_true_iff.
    + intros [H | H]; [| discriminate].
      apply startsWith_spec in H. destruct H as [rest H].
      exists "", rest. exact H.
    + intros [H | H].
      * apply startsWith_spec in H. destruct H as [rest H].
        exists "", rest. exact H.
      * destruct (IH H) as [before [after Heq]].
        exists (String c before), after. rewrite Heq. reflexivity.
  - intros [before [after Heq]]. revert s Heq.
    induction before as [| c b IH]; intros s Heq;
      rewrite includes_unfold, orb_true_iff.
    + left. apply startsWith_spec. exists after. exact Heq.
    + right. subst s. cbn [append]. apply IH. reflexivity.
Qed.

Lemma contains_empty (s : string) : contains s "".
Proof. exists "", s. reflexivity. Qed.

(** X10: for every query, [filterNumberOptions] keeps exactly the numbers
    whose decimal text contains the normalized query, and
    [filterMonthOptions] exactly the options whose lower-cased label contains
    it. *)
Theorem filters_contains (input : string) :
  (forall (options : list Z) (v : Z),
      In v (filterNumberOptions options input)
      <-> In v options /\ contains (JS.toString v) (normalizeFilterText input))
  /\ (forall (options : list MonthOption) (option : MonthOption),
      In option (filterMonthOptions options input)
      <-> In option options
          /\ contains (JS.toLowerCase (label option)) (normalizeFilterText input)).
Proof.
  unfold filterNumberOptions, filterMonthOptions. cbv zeta.
  destruct (JS.not_string (normalizeFilterText input)) eqn:Hq.
  - apply not_string_true in Hq. rewrite Hq.
    split; intros options x; pose proof (contains_empty); firstorder.
  - split; intros options x; rewrite filter_In, includes_spec; reflexivity.
Qed.

Lemma startsWith_includes (s search : string) :
  JS.startsWith s search = true -> JS.includes s search = true.
Proof.
  intros H. rewrite includes_unfold, H. reflexivity.
Qed.

(** X11: the year filter is the stricter one: every year it keeps is kept by
    the number filter for the same query, and filtering by prefix after
    filtering by substring gives the prefix result. *)
Theorem filterYearOptions_within_numbers (options : list Z) (input : string) :
  (forall v : Z,
      In v (filterYearOptions options input)
      -> In v (filterNumberOptions options input))
  /\ filterYearOptions (filterNumberOptions options input) input
     = filterYearOptions options input.
Proof.
  unfold filterYearOptions, filterNumberOptions. cbv zeta.
  destruct (JS.not_string (normalizeFilterText input)); [split; auto |].
  split.
  - intros v. rewrite !filter_In. intros [Hin Hs].
    split; [exact Hin | apply startsWith_includes, Hs].
  - induction options as [| x r IH]; [reflexivity |].
    cbn [filter].
    destruct (JS.startsWith (JS.toString x) (normalizeFilterText input)) eqn:Hs.
    + rewrite (startsWith_includes _ _ Hs). cbn [filter]. rewrite Hs, IH.
      reflexivity.
    + destruct (JS.includes _ _); cbn [filter]; [rewrite Hs |]; exact IH.
Qed.

Section Normalization.

Lemma lower_char_white_space (c : ascii) :
  JS.is_white_space (JS.lower_char c) = JS.is_white_space c.
Proof. destruct c as [[] [] [] [] [] [] [] []]; reflexivity. Qed.

Lemma lower_char_idempotent (c : ascii) :
  JS.lower_char (JS.lower_char c) = JS.lower_char c.
Proof. destruct c as [[] [] [] [] [] [] [] []]; reflexivity. Qed.

Lemma toLowerCase_idempotent (s : string) :
  JS.toLowerCase (JS.toLowerCase s) = JS.toLowerCase s.
Proof.
  induction s as [| c r IH]; simpl; [| rewrite lower_char_idempotent, IH];
    reflexivity.
Qed.

Lemma trimStart_toLowerCase (s : string) :
  JS.trimStart (JS.toLowerCase s) = JS.toLowerCase (JS.trimStart s).
Proof.
  induction s as [| c r IH]; [reflexivity |].
  simpl. rewrite lower_char_white_space.
  destruct (JS.is_white_space c); [exact IH | reflexivity].
Qed.

Lemma trimEnd_toLowerCase (s : string) :
  JS.trimEnd (JS.toLowerCase s) = JS.toLowerCase (JS.trimEnd s).
Proof.
  induction s as [| c r IH]; [reflexivity |].
  simpl. rewrite IH, lower_char_white_space.
  destruct (JS.trimEnd r); simpl; [destruct (JS.is_white_space c) |]; reflexivity.
Qed.

Lemma trim_toLowerCase (s : string) :
  JS.trim (JS.toLowerCase s) = JS.toLowerCase (JS.trim s).
Proof.
  unfold JS.trim. rewrite trimStart_toLowerCase, trimEnd_toLowerCase.
  reflexivity.
Qed.

Lemma trimStart_white_space_app (ws s : string) :
  white_space_only ws = true -> JS.trimStart (ws ++ s) = JS.trimStart s.
Proof.
  induction ws as [| c r IH]; intros Hws; [reflexivity |].
  simpl in Hws. apply andb_true_iff in Hws. destruct Hws as [Hc Hr].
  simpl. rewrite Hc. apply IH, Hr.
Qed.

Lemma trimEnd_white_space (ws : string) :
  white_space_only ws = true -> JS.trimEnd ws = "".
Proof.
  induction ws as [| c r IH]; intros Hws; [reflexivity |].
  simpl in Hws. apply andb_true_iff in Hws. destruct Hws as [Hc Hr].
  simpl. rewrite (IH Hr), Hc. reflexivity.
Qed.

Lemma trimEnd_app_white_space (s ws : string) :
  white_space_only ws = true -> JS.trimEnd (s ++ ws) = JS.trimEnd s.
Proof.
  intros Hws. induction s as [| c r IH].
  - simpl. apply trimEnd_white_space, Hws.
  - cbn [append JS.trimEnd]. rewrite IH. reflexivity.
Qed.

Lemma trimStart_app_white_space (s ws : string) :
  white_space_only ws = true ->
  JS.trimStart (s ++ ws)
  = if white_space_only s then "" else (JS.trimStart s ++ ws)%string.
Proof.
  intros Hws. induction s as [| c r IH].
  - simpl. apply trimStart_empty, Hws.
  - cbn [append JS.trimStart white_space_only].
    destruct (JS.is_white_space c); [exact IH | reflexivity].
Qed.

Lemma trim_padded (before s after : string) :
  white_space_only before = true -> white_space_only after = true ->
  JS.trim (before ++ s ++ after) = JS.trim s.
Proof.
  intros Hb Ha. unfold JS.trim.
  rewrite trimStart_white_space_app by exact Hb.
  rewrite trimStart_app_white_space by exact Ha.
  destruct (white_space_only s) eqn:Hs.
  - apply trimStart_empty in Hs. rewrite Hs. reflexivity.
  - apply trimEnd_app_white_space, Ha.
Qed.

Lemma trimStart_idempotent (s : string) :
  JS.trimStart (JS.trimStart s) = JS.trimStart s.
Proof.
  induction s as [| c r IH]; [reflexivity |].
  simpl. destruct (JS.is_white_space c) eqn:Hc; [exact IH |].
  simpl. rewrite Hc. reflexivity.
Qed.

Lemma trimEnd_cons (c : ascii) (r : string) :
  JS.trimEnd (String c r)
  = match JS.trimEnd r with
    | EmptyString =>
        if JS.is_white_space c then EmptyString else String c EmptyString
    | String c' r' => String c (String c' r')
    end.
Proof. reflexivity. Qed.

Lemma trimEnd_idempotent (s : string) :
  JS.trimEnd (JS.trimEnd s) = JS.trimEnd s.
Proof.
  induction s as [| c r IH]; [reflexivity |].
  rewrite (trimEnd_cons c r).
  destruct (JS.trimEnd r) as [| c' r'] eqn:Hr.
  - destruct (JS.is_white_space c) eqn:Hc; [reflexivity |].
    simpl. rewrite Hc. reflexivity.
  - rewrite (trimEnd_cons c (String c' r')), IH. reflexivity.
Qed.

Lemma trimEnd_keeps_head (c : ascii) (r : string) :
  JS.is_white_space c = false ->
  exists r', JS.trimEnd (String c r) = String c r'.
Proof.
  intros Hc. simpl. destruct (JS.trimEnd r); [rewrite Hc |]; eexists; reflexivity.
Qed.

Lemma trim_idempotent (s : string) : JS.trim (JS.trim s) = JS.trim s.
Proof.
  unfold JS.trim.
  destruct (trimStart_head s) as [He | [c [r [He Hc]]]]; rewrite He.
  - reflexivity.
  - destruct (trimEnd_keeps_head c r Hc) as [r' Hr']. rewrite Hr'.
    cbn [JS.trimStart]. rewrite Hc, <- Hr'. apply trimEnd_idempotent.
Qed.

Lemma normalizeFilterText_variants (before input after : string) :
  white_space_only before = true -> white_space_only after = true ->
  normalizeFilterText (before ++ input ++ after) = normalizeFilterText input
  /\ normalizeFilterText (JS.toLowerCase input) = normalizeFilterText input
  /\ normalizeFilterText (normalizeFilterText input) = normalizeFilterText input.
Proof.
  intros Hb Ha. unfold normalizeFilterText.
  split; [rewrite trim_padded by assumption; reflexivity |].
  split.
  - rewrite trim_toLowerCase. apply toLowerCase_idempotent.
  - rewrite trim_toLowerCase, trim_idempotent. apply toLowerCase_idempotent.
Qed.

End Normalization.

(** X12: the filters do not see white space around the query nor its letter
    case: a query padded with white space, the lower-cased query and the
    normalized query all give the result of the query itself, for each of
    the three filters. *)
Theorem filters_query_variants (before input after : string) :
  white_space_only before = true ->
  white_space_only after = true ->
  forall variant : string,
    variant = (before ++ input ++ after)%string
    \/ variant = JS.toLowerCase input
    \/ variant = normalizeFilterText input ->
    normalizeFilterText variant = normalizeFilterText input
    /\ (forall options : list MonthOption,
          filterMonthOptions options variant = filterMonthOptions options input)
    /\ (forall options : list Z,
          filterNumberOptions options variant = filterNumberOptions options input)
    /\ (forall options : list Z,
          filterYearOptions options variant = filterYearOptions options input).
Proof.
  intros Hb Ha variant Hvariant.
  destruct (normalizeFilterText_variants before input after Hb Ha)
    as [Hpad [Hlow Hnorm]].
  assert (Heq : normalizeFilterText variant = normalizeFilterText input)
    by (destruct Hvariant as [-> | [-> | ->]]; assumption).
  split; [exact Heq |].
  unfold filterMonthOptions, filterNumberOptions, filterYearOptions.
  cbv zeta. rewrite Heq. repeat split.
Qed.

Lemma filters_query_variants_witness :
  white_space_only " " = true
  /\ filterMonthOptions [mkMonthOption 3 "March"; mkMonthOption 4 "April"] " MA "
     = filterMonthOptions [mkMonthOption 3 "March"; mkMonthOption 4 "April"] "MA"
  /\ filterMonthOptions [mkMonthOption 3 "March"; mkMonthOption 4 "April"] "MA"
     = [mkMonthOption 3 "March"].
Proof.
  split; [reflexivity |].
  split; [| reflexivity].
  apply (filters_query_variants " " "MA" " " eq_refl eq_refl " MA ").
  left. reflexivity.
Defined.

(** ** Numbers and their decimal text *)

Section DecimalText.

Lemma string_app_assoc (a b c : string) :
  ((a ++ b) ++ c)%string = (a ++ (b ++ c))%string.
Proof. induction a as [| x a IH]; simpl; [| rewrite IH]; reflexivity. Qed.

Lemma string_app_length (a b : string) :
  String.length (a ++ b) = (String.length a + String.length b)%nat.
Proof. induction a as [| x a IH]; simpl; [| rewrite IH]; reflexivity. Qed.

Lemma digits_only_app (a b : string) :
  digits_only (a ++ b) = digits_only a && digits_only b.
Proof.
  induction a as [| x a IH]; simpl; [| rewrite IH, andb_assoc]; reflexivity.
Qed.

Lemma Number_from_app (acc : Z) (a b : string) :
  JS.Number_from acc (a ++ b) = JS.Number_from (JS.Number_from acc a) b.
Proof.
  revert acc. induction a as [| x a IH]; intros acc; simpl; [| rewrite IH];
    reflexivity.
Qed.

Lemma digit_value_range (c : ascii) :
  JS.is_digit c = true -> 0 <= JS.digit_value c <= 9.
Proof.
  unfold JS.is_digit, JS.digit_value. cbv zeta.
  rewrite andb_true_iff, !N.leb_le. lia.
Qed.

Lemma Number_from_nonneg (g : string) (acc : Z) :
  digits_only g = true -> 0 <= acc -> 0 <= JS.Number_from acc g.
Proof.
  revert acc. induction g as [| c r IH]; intros acc Hg Hacc; [exact Hacc |].
  cbn [digits_only] in Hg. apply andb_true_iff in Hg. destruct Hg as [Hc Hr].
  cbn [JS.Number_from]. apply IH; [exact Hr |].
  pose proof (digit_value_range c Hc). lia.
Qed.

(** The digits of [n], as a non-empty string of digits put in front of the
    accumulator, that reads back as [n]. *)
Lemma decimal_digits_text (n : Z) (acc : string) :
  0 <= n ->
  exists g,
    JS.decimal_digits n acc = (g ++ acc)%string
    /\ digits_only g = true
    /\ (1 <= String.length g)%nat
    /\ n < 10 ^ Z.of_nat (String.length g)
    /\ forall a, JS.Number_from a g = a * 10 ^ Z.of_nat (String.length g) + n.
Proof.
  funelim (JS.decimal_digits n acc); intros Hn.
  - exists (String (JS.digit_char n) "").
    destruct (digit_char_digit n) as [Hd Hv]; [lia |].
    split; [reflexivity |]. split; [simpl; rewrite Hd; reflexivity |].
    split; [simpl; lia |]. split; [simpl; lia |].
    intros a. cbn [JS.Number_from String.length]. rewrite Hv.
    change (10 ^ Z.of_nat 1) with 10. lia.
  - assert (Hq : 0 <= n / 10) by (apply Z.div_pos; lia).
    match goal with
    | IH : 0 <= n / 10 -> _ |- _ =>
        destruct (IH Hq) as [g [Hrun [Hdig [Hlen [Hlt Hnum]]]]]
    end.
    destruct (digit_char_digit (n mod 10)) as [Hd Hv];
      [Z.div_mod_to_equations; lia |].
    exists (g ++ String (JS.digit_char (n mod 10)) "")%string.
    rewrite string_app_length, Nat.add_1_r, Nat2Z.inj_succ, Z.pow_succ_r
      by lia.
    split; [rewrite Hrun, string_app_assoc; reflexivity |].
    split; [rewrite digits_only_app, Hdig; simpl; rewrite Hd; reflexivity |].
    split; [lia |].
    split; [Z.div_mod_to_equations; lia |].
    intros a. rewrite Number_from_app, Hnum. cbn [JS.Number_from]. rewrite Hv.
    Z.div_mod_to_equations. lia.
Qed.

Lemma string_app_empty (a : string) : (a ++ "")%string = a.
Proof. induction a as [| x a IH]; simpl; [| rewrite IH]; reflexivity. Qed.

Lemma toString_nonneg (n : Z) :
  0 <= n ->
  digits_only (JS.toString n) = true
  /\ (1 <= String.length (JS.toString n))%nat
  /\ (10 <= n -> (2 <= String.length (JS.toString n))%nat)
  /\ JS.Number (JS.toString n) = n.
Proof.
  intros Hn. unfold JS.toString.
  replace (n <? 0) with false by (symmetry; apply Z.ltb_ge; exact Hn).
  destruct (decimal_digits_text n "" Hn) as [g [Heq [Hdig [Hlen [Hlt Hnum]]]]].
  rewrite Heq, string_app_empty.
  split; [exact Hdig |]. split; [exact Hlen |]. split.
  - intros Hten.
    destruct (String.length g) as [| [| k]]; [lia | | lia].
    change (10 ^ Z.of_nat 1) with 10 in Hlt. lia.
  - unfold JS.Number. rewrite Hnum. lia.
Qed.

Lemma toString_negative (n : Z) :
  n < 0 -> (2 <= String.length (JS.toString n))%nat.
Proof.
  intros Hn. unfold JS.toString.
  replace (n <? 0) with true by (symmetry; apply Z.ltb_lt; exact Hn).
  destruct (decimal_digits_text (- n) "") as [g [Heq [_ [Hlen _]]]]; [lia |].
  rewrite Heq, string_app_empty. simpl. lia.
Qed.

End DecimalText.

(** X13: [toTwoDigit] pads and never cuts: a number within 0..9 gets one
    leading zero, and a number from 10 on, or below zero, is printed as it
    is. *)
Theorem toTwoDigit_pads (v : Z) :
  (0 <= v <= 9 -> toTwoDigit v = String "0" (JS.toString v))
  /\ (10 <= v \/ v < 0 -> toTwoDigit v = JS.toString v)
  /\ (2 <= String.length (toTwoDigit v))%nat.
Proof.
  assert (Hone : 0 <= v <= 9 -> toTwoDigit v = String "0" (JS.toString v)).
  { intros Hv. unfold toTwoDigit, JS.toString.
    replace (v <? 0) with false by (symmetry; apply Z.ltb_ge; lia).
    rewrite decimal_digits_last by lia. reflexivity. }
  assert (Hlong : 10 <= v \/ v < 0 -> toTwoDigit v = JS.toString v).
  { intros Hv.
    assert (Hlen : (2 <= String.length (JS.toString v))%nat).
    { destruct Hv as [Hv | Hv];
        [apply toString_nonneg; lia | apply toString_negative; exact Hv]. }
    unfold toTwoDigit, JS.padStart. cbv zeta.
    apply Nat.leb_le in Hlen. rewrite Hlen. reflexivity. }
  split; [exact Hone |]. split; [exact Hlong |].
  destruct (Z_lt_dec v 0) as [Hneg | Hpos].
  - rewrite Hlong by lia. apply toString_negative, Hneg.
  - destruct (Z_le_dec 10 v) as [Hten | Hsmall].
    + rewrite Hlong by lia. apply toString_nonneg; lia.
    + rewrite Hone by lia. simpl.
      pose proof (toString_nonneg v ltac:(lia)) as [_ [Hlen _]]. lia.
Qed.

(** ** Typed numbers *)

Section NumericInput.

Lemma digit_not_white_space (c : ascii) :
  JS.is_digit c = true -> JS.is_white_space c = false.
Proof.
  destruct c as [[] [] [] [] [] [] [] []]; intros H;
    first [reflexivity | discriminate H].
Qed.

Lemma trimEnd_digits (s : string) : digits_only s = true -> JS.trimEnd s = s.
Proof.
  induction s as [| c r IH]; intros Hs; [reflexivity |].
  cbn [digits_only] in Hs. apply andb_true_iff in Hs. destruct Hs as [Hc Hr].
  rewrite trimEnd_cons, (IH Hr), (digit_not_white_space c Hc).
  destruct r; reflexivity.
Qed.

Lemma trim_digits (s : string) : digits_only s = true -> JS.trim s = s.
Proof.
  intros Hs. unfold JS.trim.
  assert (Hstart : JS.trimStart s = s).
  { destruct s as [| c r]; [reflexivity |].
    cbn [digits_only] in Hs. apply andb_true_iff in Hs. destruct Hs as [Hc _].
    cbn [JS.trimStart]. rewrite (digit_not_white_space c Hc). reflexivity. }
  rewrite Hstart. apply trimEnd_digits, Hs.
Qed.

Lemma test_digits_plus_spec (s : string) :
  JS.test_digits_plus s = true <-> s <> "" /\ digits_only s = true.
Proof.
  induction s as [| c r IH].
  - simpl. split; [discriminate | intros [H _]; congruence].
  - cbn [JS.test_digits_plus digits_only]. destruct r as [| c' r'].
    + simpl. rewrite andb_true_r. split; [intros H; split; [discriminate | exact H] | tauto].
    + rewrite !andb_true_iff, IH. split.
      * intros [Hc [_ Hr]]. split; [discriminate | tauto].
      * intros [_ [Hc Hr]]. split; [exact Hc |]. split; [discriminate | exact Hr].
Qed.

Lemma parseNumericInput_some (input : string) (n : Z) :
  Picker.parseNumericInput input = Some n
  <-> JS.trim input <> "" /\ digits_only (JS.trim input) = true
      /\ n = JS.Number (JS.trim input) /\ n < 2 ^ 1024 - 2 ^ 970.
Proof.
  unfold Picker.parseNumericInput, JS.Number_isFinite. cbv zeta.
  destruct (JS.not_string (JS.trim input)) eqn:Hempty.
  - apply not_string_true in Hempty. split; [discriminate | tauto].
  - apply not_string_false in Hempty.
    destruct (JS.test_digits_plus (JS.trim input)) eqn:Htest; cbn [negb].
    + apply test_digits_plus_spec in Htest. destruct Htest as [_ Hdig].
      destruct (JS.Number (JS.trim input) <? 2 ^ 1024 - 2 ^ 970) eqn:Hfin.
      * apply Z.ltb_lt in Hfin. split.
        -- intros H. injection H as <-. tauto.
        -- intros [_ [_ [-> _]]]. reflexivity.
      * apply Z.ltb_ge in Hfin. split; [discriminate |].
        intros [_ [_ [-> Hlt]]]. lia.
    + split; [discriminate |]. intros [Hne [Hdig _]].
      assert (JS.test_digits_plus (JS.trim input) = true)
        by (apply test_digits_plus_spec; tauto).
      congruence.
Qed.

Lemma max_safe_finite (n : Z) :
  n <= JS.MAX_SAFE_INTEGER -> n < 2 ^ 1024 - 2 ^ 970.
Proof.
  intros Hn. unfold JS.MAX_SAFE_INTEGER in Hn.
  assert (2 ^ 53 - 1 < 2 ^ 1024 - 2 ^ 970) by (apply Z.ltb_lt; vm_compute; reflexivity).
  lia.
Qed.

Lemma parseNumericInput_toString (n : Z) (before after : string) :
  0 <= n <= JS.MAX_SAFE_INTEGER ->
  white_space_only before = true -> white_space_only after = true ->
  Picker.parseNumericInput (before ++ JS.toString n ++ after) = Some n.
Proof.
  intros Hn Hb Ha. apply parseNumericInput_some.
  destruct (toString_nonneg n) as [Hdig [Hlen [_ Hnum]]]; [lia |].
  rewrite trim_padded by assumption. rewrite trim_digits by exact Hdig.
  split; [destruct (JS.toString n); [simpl in Hlen; lia | discriminate] |].
  split; [exact Hdig |]. split; [symmetry; exact Hnum |].
  apply max_safe_finite. lia.
Qed.

End NumericInput.

(** X14: [parseNumericInput] gives a number only for a text that, once
    trimmed, is not empty and made of decimal digits only, and the number is
    never negative; any other character (a sign, a point, a space inside)
    gives nothing.  It reads back what [toString] prints: the decimal text of
    a safe integer from 0 on, with any white space around it, gives that
    integer. *)
Theorem parseNumericInput_digits :
  (forall (input : string) (n : Z),
      Picker.parseNumericInput input = Some n ->
      0 <= n /\ JS.trim input <> "" /\ digits_only (JS.trim input) = true
      /\ n = JS.Number (JS.trim input))
  /\ (forall input : string,
      digits_only (JS.trim input) = false \/ JS.trim input = "" ->
      Picker.parseNumericInput input = None)
  /\ (forall (n : Z) (before after : string),
      0 <= n <= JS.MAX_SAFE_INTEGER ->
      white_space_only before = true -> white_space_only after = true ->
      Picker.parseNumericInput (before ++ JS.toString n ++ after) = Some n).
Proof.
  split; [| split].
  - intros input n H. apply parseNumericInput_some in H.
    destruct H as [Hne [Hdig [Hn _]]].
    split; [| tauto]. subst n. apply Number_from_nonneg; [exact Hdig | lia].
  - intros input Hbad.
    destruct (Picker.parseNumericInput input) as [n |] eqn:Hp; [| reflexivity].
    apply parseNumericInput_some in Hp. destruct Hp as [Hne [Hdig _]].
    destruct Hbad; congruence.
  - exact parseNumericInput_toString.
Qed.

(** ** ISO text: reading and writing *)

Section Canonical.

Lemma parse_format_parts (y m d : Z) :
  1000 <= y <= 9999 -> 1 <= m <= 12 -> 1 <= d <= 31 ->
  parseIsoDate (Some (formatIsoDate y m d)) = Some (mkDateParts y m d).
Proof.
  intros Hy Hm Hd.
  destruct (toString_four_digits y Hy) as [Hg1 Hn1].
  destruct (toTwoDigit_two_digits m) as [Hg2 Hn2]; [lia |].
  destruct (toTwoDigit_two_digits d) as [Hg3 Hn3]; [lia |].
  apply parseIsoDate_some.
  exists (JS.toString y), (toTwoDigit m), (toTwoDigit d).
  rewrite Hn1, Hn2, Hn3.
  split; [unfold iso_shape, formatIsoDate; auto |].
  split; [reflexivity | lia].
Qed.

Lemma digit_char_value (c : ascii) :
  JS.is_digit c = true -> JS.digit_char (JS.digit_value c) = c.
Proof.
  destruct c as [[] [] [] [] [] [] [] []]; intros H;
    first [reflexivity | discriminate H].
Qed.

Lemma digit_string_two (g : string) :
  digit_string 2 g ->
  exists a b, g = String a (String b "")
              /\ JS.is_digit a = true /\ JS.is_digit b = true.
Proof.
  intros [Hlen Hdig].
  destruct g as [| a [| b [| c r]]]; try discriminate Hlen.
  cbn [digits_only] in Hdig. rewrite !andb_true_iff in Hdig.
  exists a, b. tauto.
Qed.

Lemma digit_string_four (g : string) :
  digit_string 4 g ->
  exists a b c d, g = String a (String b (String c (String d "")))
                  /\ JS.is_digit a = true /\ JS.is_digit b = true
                  /\ JS.is_digit c = true /\ JS.is_digit d = true.
Proof.
  intros [Hlen Hdig].
  destruct g as [| a [| b [| c [| d [| e r]]]]]; try discriminate Hlen.
  cbn [digits_only] in Hdig. rewrite !andb_true_iff in Hdig.
  exists a, b, c, d. tauto.
Qed.

(** Two digits are what [toTwoDigit] prints for their number. *)
Lemma toTwoDigit_Number (g : string) :
  digit_string 2 g -> toTwoDigit (JS.Number g) = g.
Proof.
  intros Hg. destruct (digit_string_two g Hg) as [a [b [-> [Ha Hb]]]].
  pose proof (digit_value_range a Ha) as Ra.
  pose proof (digit_value_range b Hb) as Rb.
  unfold JS.Number. cbn [JS.Number_from].
  set (va := JS.digit_value a) in *. set (vb := JS.digit_value b) in *.
  rewrite <- (digit_char_value a Ha), <- (digit_char_value b Hb).
  fold va vb.
  unfold toTwoDigit, JS.toString.
  replace (10 * (10 * 0 + va) + vb <? 0) with false
    by (symmetry; apply Z.ltb_ge; lia).
  destruct (Z_lt_dec (10 * (10 * 0 + va) + vb) 10) as [Hlt | Hge].
  - rewrite decimal_digits_last by exact Hlt.
    replace va with 0 by lia. replace (10 * (10 * 0 + 0) + vb) with vb by lia.
    reflexivity.
  - rewrite decimal_digits_more, decimal_digits_last
      by (Z.div_mod_to_equations; lia).
    replace ((10 * (10 * 0 + va) + vb) / 10) with va
      by (Z.div_mod_to_equations; lia).
    replace ((10 * (10 * 0 + va) + vb) mod 10) with vb
      by (Z.div_mod_to_equations; lia).
    reflexivity.
Qed.

(** Four digits whose number is 1000 or more are what [toString] prints for
    that number. *)
Lemma toString_Number_four (g : string) :
  digit_string 4 g -> 1000 <= JS.Number g -> JS.toString (JS.Number g) = g.
Proof.
  intros Hg.
  destruct (digit_string_four g Hg) as [a [b [c [d [-> [Ha [Hb [Hc Hd]]]]]]]].
  pose proof (digit_value_range a Ha) as Ra.
  pose proof (digit_value_range b Hb) as Rb.
  pose proof (digit_value_range c Hc) as Rc.
  pose proof (digit_value_range d Hd) as Rd.
  unfold JS.Number. cbn [JS.Number_from].
  set (va := JS.digit_value a) in *. set (vb := JS.digit_value b) in *.
  set (vc := JS.digit_value c) in *. set (vd := JS.digit_value d) in *.
  rewrite <- (digit_char_value a Ha), <- (digit_char_value b Hb),
    <- (digit_char_value c Hc), <- (digit_char_value d Hd).
  fold va vb vc vd.
  set (y := 10 * (10 * (10 * (10 * 0 + va) + vb) + vc) + vd).
  intros Hy. unfold JS.toString.
  replace (y <? 0) with false by (symmetry; apply Z.ltb_ge; lia).
  rewrite (decimal_digits_more y), (decimal_digits_more (y / 10)),
    (decimal_digits_more (y / 10 / 10)), decimal_digits_last
    by (unfold y; Z.div_mod_to_equations; lia).
  replace (y / 10 / 10 / 10) with va by (unfold y; Z.div_mod_to_equations; lia).
  replace ((y / 10 / 10) mod 10) with vb by (unfold y; Z.div_mod_to_equations; lia).
  replace ((y / 10) mod 10) with vc by (unfold y; Z.div_mod_to_equations; lia).
  replace (y mod 10) with vd by (unfold y; Z.div_mod_to_equations; lia).
  reflexivity.
Qed.

Lemma format_parsed (text : string) (parts : DateParts) :
  parseIsoDate (Some text) = Some parts ->
  1000 <= year parts ->
  formatIsoDate (year parts) (month parts) (day parts) = text.
Proof.
  intros Hparse Hy. apply parseIsoDate_some in Hparse.
  destruct Hparse as [g1 [g2 [g3 [[Hg1 [Hg2 [Hg3 ->]]] [-> _]]]]].
  cbn [year month day] in *. unfold formatIsoDate.
  rewrite toString_Number_four, !toTwoDigit_Number by assumption.
  reflexivity.
Qed.

End Canonical.

(** X15: reading is undone by writing for the texts with a year from 1000
    on: when [parseIsoDate] accepts a text and the year read is at least
    1000, [formatIsoDate] of the parts read gives the text back.  A year
    written with leading zeros is accepted but not given back:
    "0999-01-01" reads as (999, 1, 1), which is written "999-01-01". *)
Theorem format_parse_canonical :
  (forall (text : string) (parts : DateParts),
      parseIsoDate (Some text) = Some parts ->
      1000 <= year parts ->
      formatIsoDate (year parts) (month parts) (day parts) = text)
  /\ parseIsoDate (Some "0999-01-01") = Some (mkDateParts 999 1 1)
  /\ formatIsoDate 999 1 1 = "999-01-01".
Proof.
  split; [exact format_parsed |]. split; reflexivity.
Qed.

(** X16: a [Date] with a year of four digits is written by [dateToIso] as a
    text that [parseIsoDate] reads back as the parts [getTodayParts] gives
    for the same [Date] (the month counted from 1); an absent [Date] gives
    no text. *)
Theorem dateToIso_roundtrip (value : JSDate) :
  1000 <= getFullYear value <= 9999 ->
  0 <= getMonth value <= 11 ->
  1 <= getDate value <= 31 ->
  parseIsoDate (dateToIso (Some value)) = Some (getTodayParts value)
  /\ month (getTodayParts value) = getMonth value + 1
  /\ dateToIso None = None.
Proof.
  intros Hy Hm Hd. split; [| split; reflexivity].
  unfold dateToIso, getTodayParts. apply parse_format_parts; lia.
Qed.

Lemma dateToIso_roundtrip_witness :
  let value := mkJSDate 2024 5 10 in
  (1000 <= getFullYear value <= 9999
   /\ 0 <= getMonth value <= 11 /\ 1 <= getDate value <= 31)
  /\ dateToIso (Some value) = Some "2024-06-10"
  /\ parseIsoDate (dateToIso (Some value)) = Some (mkDateParts 2024 6 10).
Proof.
  intros value.
  split; [cbn; lia |]. split; [reflexivity |].
  apply (dateToIso_roundtrip value); cbn; lia.
Defined.

(** ** The control: minimum year and change notification *)


Lemma strict_eq_string_true (a b : option string) :
  JS.strict_eq_string a b = true <-> a = b.
Proof.
  destruct a as [x |], b as [y |]; simpl; try (split; congruence).
  rewrite String.eqb_eq. split; congruence.
Qed.

(** X18: [handleValueChange] stores the value it is given, and calls
    [notifyOutputChanged] exactly when that value differs from the one held:
    once for a new value, not at all for the same value, so that giving a
    value twice notifies once. *)
Theorem handleValueChange_notifies (value : option string) (s : Control.State) :
  Control.currentValue (Control.handleValueChange value s) = value
  /\ (value = Control.currentValue s -> Control.handleValueChange value s = s)
  /\ (value <> Control.currentValue s ->
      Control.notifications (Control.handleValueChange value s)
      = S (Control.notifications s))
  /\ Control.handleValueChange value (Control.handleValueChange value s)
     = Control.handleValueChange value s.
Proof.
  unfold Control.handleValueChange.
  destruct (JS.strict_eq_string value (Control.currentValue s)) eqn:Heq.
  - apply strict_eq_string_true in Heq.
    split; [congruence |]. split; [reflexivity |]. split; [congruence |].
    apply strict_eq_string_true in Heq. rewrite Heq. reflexivity.
  - assert (Hne : value <> Control.currentValue s).
    { intros H. apply strict_eq_string_true in H. congruence. }
    split; [reflexivity |]. split; [congruence |]. split; [reflexivity |].
    cbn [Control.currentValue].
    assert (Hrefl : JS.strict_eq_string value value = true)
      by (apply strict_eq_string_true; reflexivity).
    rewrite Hrefl. reflexivity.
Qed.

Lemma getMaxDayForSelection_month_le31
    (selectedYear selectedMonth : option Z) (today : DateParts) :
  getMaxDayForSelection selectedYear selectedMonth today <= 31.
Proof.
  unfold getMaxDayForSelection.
  destruct selectedMonth as [m |]; [| lia].
  destruct (JS.not_number m); [lia |]. cbv zeta.
  pose proof (getDaysInMonth_bounds (JS.nullish selectedYear FALLBACK_YEAR) m).
  destruct (_ && _); lia.
Qed.

(** ** The component: typed input *)

Section TypedInput.

Variable p : Picker.Props.



Lemma commitDayInput_selected (input : string) (s : Picker.State) (d : Z) :
  Picker.selectedDay (Picker.commitDayInput p input s) = Some d
  <-> Picker.parseNumericInput input = Some d
      /\ 1 <= d
         <= getMaxDayForSelection (Picker.selectedYear s) (Picker.selectedMonth s)
              (Picker.today p).
Proof.
  unfold Picker.commitDayInput. cbv zeta.
  assert (Hmax : (if JS.not_opt_number (Picker.selectedMonth s) then 31
                  else getMaxDayForSelection (Picker.selectedYear s)
                         (Picker.selectedMonth s) (Picker.today p))
                 = getMaxDayForSelection (Picker.selectedYear s)
                     (Picker.selectedMonth s) (Picker.today p)).
  { destruct (Picker.selectedMonth s) as [m |]; [| reflexivity].
    cbn [JS.not_opt_number]. unfold getMaxDayForSelection.
    destruct (JS.not_number m); reflexivity. }
  rewrite Hmax.
  destruct (Picker.parseNumericInput input) as [parsed |]; cbn.
  - destruct ((parsed <? 1) || (parsed >? _)) eqn:Hout; cbn.
    + apply orb_true_iff in Hout. rewrite Z.ltb_lt, Z.gtb_ltb, Z.ltb_lt in Hout.
      split; [discriminate |]. intros [H Hr]. injection H as ->. lia.
    + apply orb_false_iff in Hout. rewrite Z.ltb_ge, Z.gtb_ltb, Z.ltb_ge in Hout.
      split; [intros H; injection H as ->; split; [reflexivity | lia] |].
      intros [H _]. exact H.
  - split; [discriminate | intros [H _]; discriminate].
Qed.

End TypedInput.



(** X20: a typed day is selected exactly when it reads as a number that is
    one of the days offered for the selection, that is, within 1 and
    [getMaxDayForSelection]; anything else clears the day. *)
Theorem commitDayInput_range
    (p : Picker.Props) (input : string) (s : Picker.State) (d : Z) :
  let offered :=
    getAvailableDays (Picker.selectedYear s) (Picker.selectedMonth s)
      (Picker.today p) in
  (Picker.selectedDay (Picker.commitDayInput p input s) = Some d
   <-> Picker.parseNumericInput input = Some d /\ In d offered)
  /\ (Picker.selectedDay (Picker.commitDayInput p input s) = Some d ->
      1 <= d <= 31)
  /\ (Picker.parseNumericInput input = None ->
      Picker.selectedDay (Picker.commitDayInput p input s) = None).
Proof.
  intros offered. unfold offered.
  rewrite commitDayInput_selected, getAvailableDays_count_to, count_to_In.
  split; [reflexivity |]. split.
  - intros [_ Hd].
    pose proof (getMaxDayForSelection_month_le31 (Picker.selectedYear s)
                  (Picker.selectedMonth s) (Picker.today p)). lia.
  - intros Hnone. unfold Picker.commitDayInput. rewrite Hnone. reflexivity.
Qed.

(** ** The component: the value given out and the value taken in *)

Lemma computedIso_some (s : Picker.State) (text : string) :
  Picker.computedIso s = Some text
  <-> exists y m d,
        Picker.selectedYear s = Some y /\ Picker.selectedMonth s = Some m
        /\ Picker.selectedDay s = Some d
        /\ y <> 0 /\ m <> 0 /\ d <> 0 /\ text = formatIsoDate y m d.
Proof.
  unfold Picker.computedIso, JS.not_number.
  destruct (Picker.selectedYear s) as [y |],
           (Picker.selectedMonth s) as [m |],
           (Picker.selectedDay s) as [d |];
    try (split; [discriminate | intros [? [? [? H]]]; decompose [and] H; discriminate]).
  destruct (y =? 0) eqn:Hy, (m =? 0) eqn:Hm, (d =? 0) eqn:Hd; cbn [negb andb];
    rewrite ?Z.eqb_eq, ?Z.eqb_neq in *;
    (split;
     [intros H; try discriminate H; injection H as <-;
      exists y, m, d; repeat split; assumption
     | intros [y' [m' [d' [Ey [Em [Ed [Ny [Nm [Nd ->]]]]]]]]];
       injection Ey as <-; injection Em as <-; injection Ed as <-;
       try reflexivity; contradiction]).
Qed.

(** X21: the component gives out a text only for a complete selection: with
    the year, the month or the day absent or 0 there is no text, and a text
    given out is [formatIsoDate] of the three numbers selected.  For a
    selection with a year of four digits, a month within 1..12 and a day
    within 1..31 the text is read back by [parseIsoDate] as that
    selection. *)
Theorem computedIso_complete (s : Picker.State) :
  (forall text, Picker.computedIso s = Some text
     <-> exists y m d,
           Picker.selectedYear s = Some y /\ Picker.selectedMonth s = Some m
           /\ Picker.selectedDay s = Some d
           /\ y <> 0 /\ m <> 0 /\ d <> 0 /\ text = formatIsoDate y m d)
  /\ (JS.not_opt_number (Picker.selectedYear s) = true
      \/ JS.not_opt_number (Picker.selectedMonth s) = true
      \/ JS.not_opt_number (Picker.selectedDay s) = true ->
      Picker.computedIso s = None)
  /\ (forall y m d,
      Picker.selectedYear s = Some y -> Picker.selectedMonth s = Some m ->
      Picker.selectedDay s = Some d ->
      1000 <= y <= 9999 -> 1 <= m <= 12 -> 1 <= d <= 31 ->
      parseIsoDate (Picker.computedIso s) = Some (mkDateParts y m d)).
Proof.
  split; [intros text; apply computedIso_some |]. split.
  - intros Hmissing.
    destruct (Picker.computedIso s) as [text |] eqn:Hc; [| reflexivity].
    apply computedIso_some in Hc.
    destruct Hc as [y [m [d [Ey [Em [Ed [Ny [Nm [Nd _]]]]]]]]].
    rewrite Ey, Em, Ed in Hmissing.
    unfold JS.not_opt_number, JS.not_number in Hmissing.
    rewrite !Z.eqb_eq in Hmissing. lia.
  - intros y m d Ey Em Ed Hy Hm Hd.
    assert (Hc : Picker.computedIso s = Some (formatIsoDate y m d)).
    { apply computedIso_some. exists y, m, d.
      repeat split; try assumption; lia. }
    rewrite Hc. apply parse_format_parts; assumption.
Qed.

(** X22: taking a value over.  An absent, empty or unreadable value clears
    the selection and the three texts, and nothing is given out.  A value
    that [parseIsoDate] reads selects the parts read; and when the year read
    is at least 1000 the component gives out the very text it took in. *)
Theorem syncFromValue_echo
    (p : Picker.Props) (value : option string) (s : Picker.State) :
  let s' := Picker.syncFromValue p value s in
  (parseIsoDate value = None ->
   s' = Picker.mkState None None None "" "" "" "" "" ""
   /\ Picker.computedIso s' = None)
  /\ (forall parts, parseIsoDate value = Some parts ->
      Picker.selectedYear s' = Some (year parts)
      /\ Picker.selectedMonth s' = Some (month parts)
      /\ Picker.selectedDay s' = Some (day parts)
      /\ Picker.yearInput s' = JS.toString (year parts)
      /\ Picker.dayInput s' = JS.toString (day parts)
      /\ Picker.computedIso s'
         = Some (formatIsoDate (year parts) (month parts) (day parts))
      /\ (1000 <= year parts -> Picker.computedIso s' = value)).
Proof.
  intros s'. unfold s', Picker.syncFromValue. cbv zeta.
  destruct value as [text |]; [| split; [intros _; split; reflexivity | discriminate]].
  destruct (JS.not_string text) eqn:Hempty.
  - apply not_string_true in Hempty. subst text.
    split; [intros _; split; reflexivity | discriminate].
  - destruct (parseIsoDate (Some text)) as [parsed |] eqn:Hparse.
    + split; [discriminate |].
      intros parts Hparts. injection Hparts as <-.
      pose proof Hparse as Hrange. apply parseIsoDate_some in Hrange.
      destruct Hrange as [g1 [g2 [g3 [_ [Hparts [Hy [Hm Hd]]]]]]].
      assert (Hiso : Picker.computedIso
                       (Picker.mkState (Some (year parsed)) (Some (month parsed))
                          (Some (day parsed)) (JS.toString (year parsed))
                          match JS.Map_get (Picker.monthLabelMap p) (month parsed) with
                          | Some name => name
                          | None => JS.toString (month parsed)
                          end
                          (JS.toString (day parsed)) (Picker.yearFilter s)
                          (Picker.monthFilter s) (Picker.dayFilter s))
                     = Some (formatIsoDate (year parsed) (month parsed)
                               (day parsed))).
      { apply computedIso_some.
        exists (year parsed), (month parsed), (day parsed).
        subst parsed. cbn [year month day] in *.
        repeat split; try reflexivity; lia. }
      repeat split; try reflexivity; try exact Hiso.
      intros Hbig. rewrite Hiso. f_equal. apply format_parsed; assumption.
    + split; [intros _; split; reflexivity | discriminate].
Qed.

(** ** The component: month labels *)

Section LabelMap.

Lemma Map_get_set (m : list (Z * string)) (k k' : Z) (v : string) :
  JS.Map_get (JS.Map_set m k v) k'
  = if k =? k' then Some v else JS.Map_get m k'.
Proof.
  induction m as [| [k0 v0] r IH]; cbn [JS.Map_set JS.Map_get].
  - reflexivity.
  - destruct (k0 =? k) eqn:H0; cbn [JS.Map_get].
    + apply Z.eqb_eq in H0. subst k0. destruct (k =? k'); reflexivity.
    + rewrite IH. destruct (k0 =? k') eqn:H1; [| reflexivity].
      apply Z.eqb_eq in H1. subst k0. rewrite Z.eqb_sym, H0. reflexivity.
Qed.

Lemma find_app {A : Type} (f : A -> bool) (l1 l2 : list A) :
  find f (l1 ++ l2)%list
  = match find f l1 with
    | Some x => Some x
    | None => find f l2
    end.
Proof.
  induction l1 as [| x r IH]; [reflexivity |].
  simpl. destruct (f x); [reflexivity | exact IH].
Qed.

Lemma fold_Map_set_get (options : list MonthOption) (acc : list (Z * string)) (k : Z) :
  JS.Map_get
    (fold_left (fun map option => JS.Map_set map (value option) (label option))
       options acc) k
  = match find (fun option => value option =? k) (rev options) with
    | Some option => Some (label option)
    | None => JS.Map_get acc k
    end.
Proof.
  revert acc. induction options as [| o r IH]; intros acc; [reflexivity |].
  cbn [fold_left rev]. rewrite IH, find_app, Map_get_set.
  destruct (find _ (rev r)); [reflexivity |].
  cbn [find]. destruct (value o =? k); reflexivity.
Qed.

End LabelMap.

(** X23: the label map gives, for a month number, the label of the last
    option with that value, and nothing for a number that no option has; for
    options with distinct values, as [buildMonthOptions] makes them, every
    option's value is mapped to its own label. *)
Theorem getMonthLabelMap_lookup (options : list MonthOption) (k : Z) :
  JS.Map_get (Picker.getMonthLabelMap options) k
  = option_map label (find (fun option => value option =? k) (rev options))
  /\ (~ In k (map value options) ->
      JS.Map_get (Picker.getMonthLabelMap options) k = None)
  /\ (NoDup (map value options) ->
      forall option, In option options ->
        JS.Map_get (Picker.getMonthLabelMap options) (value option)
        = Some (label option)).
Proof.
  assert (Hget : forall key,
            JS.Map_get (Picker.getMonthLabelMap options) key
            = option_map label
                (find (fun option => value option =? key) (rev options))).
  { intros key. unfold Picker.getMonthLabelMap. rewrite fold_Map_set_get.
    destruct (find _ (rev options)); reflexivity. }
  split; [apply Hget |]. split.
  - intros Hnot. rewrite Hget.
    destruct (find _ (rev options)) as [o |] eqn:Hfind; [| reflexivity].
    apply find_some in Hfind. destruct Hfind as [Hin Hk].
    apply Z.eqb_eq in Hk. exfalso. apply Hnot. rewrite <- Hk.
    apply in_map, in_rev. exact Hin.
  - intros Hnodup o Hin. rewrite Hget.
    destruct (find _ (rev options)) as [o' |] eqn:Hfind.
    + apply find_some in Hfind. destruct Hfind as [Hin' Hk].
      apply Z.eqb_eq in Hk. apply in_rev in Hin'.
      assert (o' = o); [| subst; reflexivity].
      clear Hget. induction options as [| x r IH]; [contradiction |].
      cbn [map] in Hnodup. inversion Hnodup as [| ? ? Hx Hr]; subst.
      destruct Hin as [-> | Hin], Hin' as [-> | Hin'].
      * reflexivity.
      * exfalso. apply Hx. rewrite <- Hk. apply in_map. exact Hin'.
      * exfalso. apply Hx. rewrite Hk. apply in_map. exact Hin.
      * apply IH; assumption.
    + pose proof (find_none _ _ Hfind o) as Hnone. cbv beta in Hnone.
      rewrite Z.eqb_refl in Hnone. rewrite <- in_rev in Hnone.
      specialize (Hnone Hin). discriminate Hnone.
Qed.

(** ** The component: the effects that follow the selection *)

Section SelectionEffects.

Variable p : Picker.Props.

Lemma gtb_irrefl (x : Z) : (x >? x) = false.
Proof. rewrite Z.gtb_ltb. apply Z.ltb_irrefl. Qed.

(** One render, field by field. *)
Lemma selectionEffects_fields (s : Picker.State) :
  let maxMonth := getMaxMonthForYear (Picker.selectedYear s) (Picker.today p) in
  Picker.selectionEffects p s
  = Picker.mkState
      (Picker.selectedYear s)
      (if month_clamp_due p s then Some maxMonth else Picker.selectedMonth s)
      (if day_clamp_due p s then None else Picker.selectedDay s)
      (Picker.yearInput s)
      (if month_clamp_due p s
       then Picker.monthInput
              (Picker.setMonthSelection p (Some maxMonth) s)
       else month_text_labelled p s)
      (if day_clamp_due p s then "" else Picker.dayInput s)
      (Picker.yearFilter s)
      (if month_clamp_due p s then "" else Picker.monthFilter s)
      (if day_clamp_due p s then "" else Picker.dayFilter s).
Proof.
  destruct s as [sy sm sd yi mi di yf mf df].
  unfold Picker.selectionEffects, Picker.dayClampEffect, Picker.monthClampEffect,
    month_clamp_due, day_clamp_due, month_text_labelled.
  cbn [Picker.selectedYear Picker.selectedMonth Picker.selectedDay
       Picker.yearInput Picker.monthInput Picker.dayInput
       Picker.yearFilter Picker.monthFilter Picker.dayFilter].
  set (L := Picker.monthLabelEffect p _ _).
  assert (HL : L = Picker.mkState sy sm sd yi (Picker.monthInput L) di yf mf df).
  { unfold L, Picker.monthLabelEffect.
    cbn [Picker.selectedYear Picker.selectedMonth Picker.selectedDay
         Picker.yearInput Picker.monthInput Picker.dayInput
         Picker.yearFilter Picker.monthFilter Picker.dayFilter].
    destruct (JS.not_opt_number sm); [reflexivity |].
    destruct sm as [m |]; [| reflexivity].
    destruct (JS.Map_get (Picker.monthLabelMap p) m); [| reflexivity].
    destruct (_ && _); reflexivity. }
  rewrite HL. cbn [Picker.monthInput].
  destruct sy as [y |], sm as [m |], sd as [d |]; cbv zeta;
    repeat match goal with
           | |- context [if ?b then _ else _] => destruct b
           end; reflexivity.
Qed.

Ltac state_fields :=
  cbn [Picker.selectedYear Picker.selectedMonth Picker.selectedDay
       Picker.yearInput Picker.monthInput Picker.dayInput
       Picker.yearFilter Picker.monthFilter Picker.dayFilter].

(** The label effect has nothing left to do once its text is in place. *)
Lemma month_text_labelled_again (s : Picker.State) (text : string) :
  text = month_text_labelled p s ->
  month_text_labelled p
    (Picker.mkState (Picker.selectedYear s) (Picker.selectedMonth s)
       (Picker.selectedDay s) (Picker.yearInput s) text (Picker.dayInput s)
       (Picker.yearFilter s) (Picker.monthFilter s) (Picker.dayFilter s))
  = text.
Proof.
  intros ->. destruct s as [sy sm sd yi mi di yf mf df].
  unfold month_text_labelled, Picker.monthLabelEffect. state_fields.
  destruct (JS.not_opt_number sm); [reflexivity |].
  destruct sm as [m |]; [| reflexivity].
  destruct (JS.Map_get (Picker.monthLabelMap p) m) as [name |]; [| reflexivity].
  destruct (negb (JS.not_string name) && negb (String.eqb name mi)) eqn:Hfire;
    state_fields.
  - rewrite String.eqb_refl, andb_false_r. reflexivity.
  - rewrite Hfire. reflexivity.
Qed.

Lemma month_text_labelled_ext (s t : Picker.State) :
  Picker.selectedMonth s = Picker.selectedMonth t ->
  Picker.monthInput s = Picker.monthInput t ->
  month_text_labelled p s = month_text_labelled p t.
Proof.
  destruct s, t. unfold month_text_labelled, Picker.monthLabelEffect.
  state_fields. intros -> ->.
  repeat match goal with
         | |- context [match ?o with Some _ => _ | None => _ end] => destruct o
         | |- context [if ?b then _ else _] => destruct b
         end; reflexivity.
Qed.

(** After one render the month is within range and its text is in place. *)
Lemma selectionEffects_month_done (s : Picker.State) :
  month_clamp_due p (Picker.selectionEffects p s) = false
  /\ month_text_labelled p (Picker.selectionEffects p s)
     = Picker.monthInput (Picker.selectionEffects p s).
Proof.
  rewrite selectionEffects_fields. cbv zeta.
  destruct (month_clamp_due p s) eqn:Hclamp.
  - split.
    + unfold month_clamp_due in *. state_fields.
      destruct (Picker.selectedYear s); [apply gtb_irrefl | reflexivity].
    + unfold month_text_labelled, Picker.monthLabelEffect,
        Picker.setMonthSelection.
      state_fields. cbn [JS.not_opt_number].
      destruct (JS.not_number _); [reflexivity |].
      destruct (JS.Map_get _ _) as [name |]; [| reflexivity].
      rewrite String.eqb_refl, andb_false_r. reflexivity.
  - split.
    + unfold month_clamp_due in *. state_fields. exact Hclamp.
    + state_fields.
      rewrite <- (month_text_labelled_again s (month_text_labelled p s) eq_refl)
        at 2.
      apply month_text_labelled_ext; reflexivity.
Qed.

(** A render that finds nothing to do leaves the state as it is. *)
Lemma selectionEffects_idle (s : Picker.State) :
  month_clamp_due p s = false ->
  day_clamp_due p s = false ->
  month_text_labelled p s = Picker.monthInput s ->
  Picker.selectionEffects p s = s.
Proof.
  intros Hm Hd Ht. rewrite selectionEffects_fields. cbv zeta.
  rewrite Hm, Hd, Ht. destruct s; reflexivity.
Qed.

Lemma selectionEffects_day_done (s : Picker.State) :
  month_clamp_due p s = false ->
  day_clamp_due p (Picker.selectionEffects p s) = false.
Proof.
  intros Hm. rewrite selectionEffects_fields. cbv zeta. rewrite Hm.
  destruct (day_clamp_due p s) eqn:Hd.
  - unfold day_clamp_due. state_fields.
    destruct (Picker.selectedMonth s); reflexivity.
  - unfold day_clamp_due in *. state_fields. exact Hd.
Qed.

Lemma selectionEffects_settles (s : Picker.State) :
  Picker.selectionEffects p
    (Picker.selectionEffects p (Picker.selectionEffects p s))
  = Picker.selectionEffects p (Picker.selectionEffects p s).
Proof.
  destruct (selectionEffects_month_done s) as [Hm1 _].
  destruct (selectionEffects_month_done (Picker.selectionEffects p s))
    as [Hm2 Ht2].
  apply selectionEffects_idle;
    [exact Hm2 | apply selectionEffects_day_done; exact Hm1 | exact Ht2].
Qed.

Lemma selectionEffects_settled (s : Picker.State) :
  Picker.selectionEffects p s = s ->
  month_clamp_due p s = false /\ day_clamp_due p s = false.
Proof.
  intros Hfix. rewrite selectionEffects_fields in Hfix. cbv zeta in Hfix.
  pose proof (f_equal Picker.selectedMonth Hfix) as Hmonth.
  pose proof (f_equal Picker.selectedDay Hfix) as Hday.
  clear Hfix. cbn [Picker.selectedMonth Picker.selectedDay] in Hmonth, Hday.
  split.
  - destruct (month_clamp_due p s) eqn:Hclamp; [| reflexivity].
    unfold month_clamp_due in Hclamp.
    destruct (Picker.selectedYear s) as [y |]; [| discriminate Hclamp].
    rewrite <- Hmonth, gtb_irrefl in Hclamp. discriminate Hclamp.
  - destruct (day_clamp_due p s) eqn:Hclamp; [| reflexivity].
    unfold day_clamp_due in Hclamp. rewrite <- Hday in Hclamp.
    destruct (Picker.selectedMonth s); discriminate Hclamp.
Qed.

End SelectionEffects.

(** X24: the effects that follow the selection never change the year, and
    two renders are enough: a third one finds nothing to do.  In a state
    the effects leave as it is, a month selected together with a year does
    not exceed [getMaxMonthForYear] and a day selected together with a month
    does not exceed [getMaxDayForSelection]; so a complete selection (year
    and month not 0) whose year is not after today's year is a date not
    after today. *)
Theorem selectionEffects_invariant (p : Picker.Props) (s : Picker.State) :
  Picker.selectedYear (Picker.selectionEffects p s) = Picker.selectedYear s
  /\ Picker.selectionEffects p
       (Picker.selectionEffects p (Picker.selectionEffects p s))
     = Picker.selectionEffects p (Picker.selectionEffects p s)
  /\ (Picker.selectionEffects p s = s ->
      (forall y m, Picker.selectedYear s = Some y ->
                   Picker.selectedMonth s = Some m ->
                   m <= getMaxMonthForYear (Some y) (Picker.today p))
      /\ (forall m d, Picker.selectedMonth s = Some m ->
                      Picker.selectedDay s = Some d ->
                      d <= getMaxDayForSelection (Picker.selectedYear s) (Some m)
                             (Picker.today p))
      /\ (forall y m d, Picker.selectedYear s = Some y ->
                        Picker.selectedMonth s = Some m ->
                        Picker.selectedDay s = Some d ->
                        y <> 0 -> m <> 0 -> y <= year (Picker.today p) ->
                        not_after y m d (Picker.today p))).
Proof.
  split; [rewrite selectionEffects_fields; reflexivity |].
  split; [apply selectionEffects_settles |].
  intros Hfix. destruct (selectionEffects_settled p s Hfix) as [Hm Hd].
  assert (Hmonth : forall y m, Picker.selectedYear s = Some y ->
            Picker.selectedMonth s = Some m ->
            m <= getMaxMonthForYear (Some y) (Picker.today p)).
  { intros y m Ey Em. unfold month_clamp_due in Hm. rewrite Ey, Em in Hm.
    rewrite Z.gtb_ltb in Hm. apply Z.ltb_ge in Hm. exact Hm. }
  assert (Hday : forall m d, Picker.selectedMonth s = Some m ->
            Picker.selectedDay s = Some d ->
            d <= getMaxDayForSelection (Picker.selectedYear s) (Some m)
                   (Picker.today p)).
  { intros m d Em Ed. unfold day_clamp_due in Hd. rewrite Em, Ed in Hd.
    rewrite Z.gtb_ltb in Hd. apply Z.ltb_ge in Hd. exact Hd. }
  split; [exact Hmonth |]. split; [exact Hday |].
  intros y m d Ey Em Ed Hy Hm0 Hle.
  specialize (Hmonth y m Ey Em). specialize (Hday m d Em Ed).
  rewrite Ey in Hday. unfold not_after.
  destruct (Z.eq_dec y (year (Picker.today p))) as [-> | Hne]; [| left; lia].
  rewrite getMaxMonthForYear_present in Hmonth by exact Hy.
  rewrite Z.eqb_refl in Hmonth.
  destruct (Z.eq_dec m (month (Picker.today p))) as [-> | Hnm];
    [| right; left; lia].
  right; right. split; [reflexivity |]. split; [reflexivity |].
  rewrite getMaxDayForSelection_month in Hday by exact Hm0.
  cbv zeta in Hday. cbn [JS.strict_eq] in Hday.
  rewrite !Z.eqb_refl in Hday. cbn [andb] in Hday. lia.
Qed.
(** ** Sample runs of the further properties *)

Lemma getAvailableMonths_built_witness :
  let today := mkDateParts 2024 6 10 in
  let names :=
    Some ["January"; "February"; "March"; "April"; "May"; "June"; "July";
          "August"; "September"; "October"; "November"; "December"] in
  (year today <> 0 /\ 1 <= month today <= 12)
  /\ map value
       (getAvailableMonths
          (buildMonthOptions (fun _ => true) (fun _ _ => "") "en-AU" names)
          (Some 2024) today)
     = [1; 2; 3; 4; 5; 6].
Proof.
  intros today names. split; [cbn; lia |].
  apply (getAvailableMonths_built (fun _ => true) (fun _ _ => "") "en-AU" names
           (Some 2024) today); [reflexivity | cbn; lia | cbn; lia].
Defined.


Lemma computedIso_complete_witness :
  let s := Picker.mkState (Some 2024) (Some 2) (Some 29) "2024" "February" "29"
             "" "" "" in
  Picker.computedIso s = Some "2024-02-29"
  /\ parseIsoDate (Picker.computedIso s) = Some (mkDateParts 2024 2 29).
Proof.
  intros s. split; [reflexivity |].
  apply (computedIso_complete s); first [reflexivity | lia].
Defined.

Lemma syncFromValue_echo_witness :
  let p := Picker.mkProps 1901 (mkDateParts 2024 6 10) [(2, "February")] in
  let s := Picker.mkState None None None "" "" "" "" "" "" in
  parseIsoDate (Some "2024-02-29") = Some (mkDateParts 2024 2 29)
  /\ Picker.monthInput (Picker.syncFromValue p (Some "2024-02-29") s) = "February"
  /\ Picker.computedIso (Picker.syncFromValue p (Some "2024-02-29") s)
     = Some "2024-02-29".
Proof.
  intros p s. split; [reflexivity |]. split; [reflexivity |].
  apply (proj2 (syncFromValue_echo p (Some "2024-02-29") s)
           (mkDateParts 2024 2 29) eq_refl).
  cbn. lia.
Defined.

Lemma selectionEffects_invariant_witness :
  let p := Picker.mkProps 1901 (mkDateParts 2024 6 10) [(6, "June")] in
  let s := Picker.mkState (Some 2024) (Some 9) (Some 30) "2024" "September" "30"
             "" "" "" in
  let settled := Picker.selectionEffects p (Picker.selectionEffects p s) in
  settled = Picker.mkState (Some 2024) (Some 6) None "2024" "June" "" "" "" ""
  /\ Picker.selectionEffects p settled = settled
  /\ (forall y m, Picker.selectedYear settled = Some y ->
                  Picker.selectedMonth settled = Some m ->
                  m <= getMaxMonthForYear (Some y) (Picker.today p)).
Proof.
  intros p s settled.
  assert (Hfix : Picker.selectionEffects p settled = settled) by reflexivity.
  split; [reflexivity |]. split; [exact Hfix |].
  apply (selectionEffects_invariant p settled). exact Hfix.
Defined.
